(** * SMA EMeter datagram decoding (emeter.py), shallow embedding

    The [EMeter] class of emeter.py keeps the received datagram in
    [self.emdat], the parsed header in the dict [self.header] and the
    channel list in [self.cl].  Its methods are modelled as functions from
    the object state to the new object state and a Python result, which is
    either a value or a raised exception.  Mutations done before an
    exception is raised stay visible in the returned state, as they do on
    the Python object. *)

From Stdlib Require Import ZArith Lia String Ascii Bool Arith List.
Import ListNotations.
Open Scope Z_scope.

(** ** Python values and exceptions *)

Inductive pyexc : Type :=
| StructError   (* struct.error: buffer too short for the format *)
| IndexError    (* list index out of range *)
| TypeError.    (* operation applied to a value of the wrong type *)

Inductive result (A : Type) : Type :=
| Ok (a : A)
| Raise (e : pyexc).
Arguments Ok {A} a.
Arguments Raise {A} e.

Definition bind {A B} (m : result A) (k : A -> result B) : result B :=
  match m with
  | Ok a => k a
  | Raise e => Raise e
  end.

Notation "x <- m ;; k" := (bind m (fun x => k))
  (at level 61, m at next level, right associativity).

(** Objects produced by [struct.unpack_from]: Python ints and bytes. *)
Inductive pyval : Type :=
| PInt (z : Z)
| PBytes (b : list Byte.byte).

Definition byte_val (b : Byte.byte) : Z := Z.of_N (Byte.to_N b).

(** [l[i]] on a Python list. *)
Definition py_index {A} (l : list A) (i : nat) : result A :=
  match nth_error l i with
  | Some x => Ok x
  | None => Raise IndexError
  end.

(** [v == z] for an int literal [z]: bytes never compare equal to an int. *)
Definition py_eq_int (v : pyval) (z : Z) : bool :=
  match v with
  | PInt x => Z.eqb x z
  | PBytes _ => false
  end.

Definition py_int (v : pyval) : result Z :=
  match v with
  | PInt x => Ok x
  | PBytes _ => Raise TypeError
  end.

(** [v // d]: Python floor division ([Z.div] floors as well). *)
Definition py_floordiv (v : pyval) (d : Z) : result Z :=
  match v with
  | PInt x => Ok (x / d)
  | PBytes _ => Raise TypeError
  end.

(** ** The [struct] module, big-endian formats only

    A format string such as [">4sHHIHHHHII"] is written as the list of its
    codes; every format of emeter.py starts with [>] (big-endian, standard
    sizes, no alignment). *)

Inductive fmtcode : Type :=
| Fs (n : nat)   (* ns : n raw bytes *)
| FB             (* B  : unsigned char *)
| FH             (* H  : unsigned short *)
| FI             (* I  : unsigned int *)
| FQ.            (* Q  : unsigned long long *)

Definition code_size (c : fmtcode) : nat :=
  match c with
  | Fs n => n
  | FB => 1
  | FH => 2
  | FI => 4
  | FQ => 8
  end.

Definition calcsize (fmt : list fmtcode) : nat :=
  fold_right (fun c acc => (code_size c + acc)%nat) 0%nat fmt.

(** Unsigned big-endian integer of a byte string. *)
Definition be_uint (l : list Byte.byte) : Z :=
  fold_left (fun acc b => acc * 256 + byte_val b) l 0.

Fixpoint decode_fields (fmt : list fmtcode) (bytes : list Byte.byte)
  : list pyval :=
  match fmt with
  | [] => []
  | c :: fmt' =>
      let chunk := firstn (code_size c) bytes in
      (match c with
       | Fs _ => PBytes chunk
       | _ => PInt (be_uint chunk)
       end) :: decode_fields fmt' (skipn (code_size c) bytes)
  end.

(** [struct.unpack_from(fmt, buffer, offset)]: raises [struct.error] when
    fewer than [calcsize(fmt)] bytes are left at [offset]. *)
Definition unpack_from (fmt : list fmtcode) (buf : list Byte.byte)
    (offset : nat) : result (list pyval) :=
  if (length buf <? offset + calcsize fmt)%nat then Raise StructError
  else Ok (decode_fields fmt (skipn offset buf)).

(** ** Class constants of [EMeter] *)

Definition EMETER_HEADER_FORMAT : list fmtcode :=
  [Fs 4; FH; FH; FI; FH; FH; FH; FH; FI; FI].
Definition EMETER_HEADER_SIZE : nat := calcsize EMETER_HEADER_FORMAT.

Definition VAL4 : list fmtcode := [FI].
Definition VAL8 : list fmtcode := [FQ].
Definition OBISTAG : list fmtcode := [FB; FB; FB; FB].

Definition CHNIDX : nat := 0.
Definition VALIDX : nat := 1.
Definition TYPEIDX : nat := 2.
Definition TARIFFIDX : nat := 3.
Definition VALUEIDX : nat := 4.

Definition TYPE4 : Z := 4.
Definition TYPE8 : Z := 8.

Definition ALL_ACT_POWER_FROM_GRID : Z := 1.
Definition ALL_ACT_POWER_TO_GRID : Z := 2.
Definition PHASE1_ACT_PWR_FROM_GRID : Z := 21.
Definition PHASE1_ACT_PWR_TO_GRID : Z := 22.
Definition PHASE1_CURRENT : Z := 31.
Definition PHASE1_VOLTAGE : Z := 32.
Definition PHASE2_ACT_PWR_FROM_GRID : Z := 41.
Definition PHASE2_ACT_PWR_TO_GRID : Z := 42.
Definition PHASE2_CURRENT : Z := 51.
Definition PHASE2_VOLTAGE : Z := 52.
Definition PHASE3_ACT_PWR_FROM_GRID : Z := 61.
Definition PHASE3_ACT_PWR_TO_GRID : Z := 62.
Definition PHASE3_CURRENT : Z := 71.
Definition PHASE3_VOLTAGE : Z := 72.

(** ** String formatting used by [get_header] *)

Definition digit_char (d : Z) : ascii :=
  match String.get (Z.to_nat d) "0123456789ABCDEF" with
  | Some c => c
  | None => "?"%char
  end.

(** Digits of [n >= 0] in [base], most significant first; ["0"] for 0.
    [fuel] bounds the number of digits. *)
Fixpoint to_digits (fuel : nat) (base n : Z) : list Z :=
  match fuel with
  | O => [n]
  | S f => if n <? base then [n] else to_digits f base (n / base) ++ [n mod base]
  end.

Definition digits (base n : Z) : list Z :=
  to_digits (S (Z.to_nat (Z.log2 n))) base n.

Definition string_of_digits (ds : list Z) : string :=
  fold_right (fun d s => String (digit_char d) s) EmptyString ds.

Fixpoint zeros (k : nat) : string :=
  match k with
  | O => EmptyString
  | S k' => String "0" (zeros k')
  end.

(** Right-aligns [s] with zeros to width [w] (the [0] flag of a format
    specification). *)
Definition zero_pad (w : nat) (s : string) : string :=
  String.append (zeros (w - String.length s)) s.

(** Upper-case hexadecimal digits of [n >= 0], zero padded to [w]. *)
Definition hex_str (w : nat) (n : Z) : string :=
  zero_pad w (string_of_digits (digits 16 n)).

(** Decimal digits of [n >= 0]. *)
Definition dec_str (n : Z) : string := string_of_digits (digits 10 n).

(** ["{:0wX}".format(v)]: zero padded to [w] characters, sign first. *)
Definition format_hex (w : nat) (v : pyval) : result string :=
  match v with
  | PInt n =>
      if n <? 0 then Ok (String "-" (hex_str (w - 1) (- n))) else Ok (hex_str w n)
  | PBytes _ => Raise TypeError
  end.

(** ["{:d}".format(v)]. *)
Definition format_dec (v : pyval) : result string :=
  match v with
  | PInt n => if n <? 0 then Ok (String "-" (dec_str (- n))) else Ok (dec_str n)
  | PBytes _ => Raise TypeError
  end.

Definition ascii_of_Z (z : Z) : ascii := ascii_of_nat (Z.to_nat z).

(** [repr] of one byte inside a bytes literal delimited by [quote]. *)
Definition repr_byte (quote : Z) (b : Byte.byte) : string :=
  let c := byte_val b in
  if (c =? quote) || (c =? 92) then String "\" (String (ascii_of_Z c) EmptyString)
  else if c =? 9 then "\t"
  else if c =? 10 then "\n"
  else if c =? 13 then "\r"
  else if (c <? 32) || (c >=? 127) then
    String "\" (String "x" (String (ascii_of_Z (if c / 16 <? 10 then 48 + c / 16 else 87 + c / 16))
      (String (ascii_of_Z (if c mod 16 <? 10 then 48 + c mod 16 else 87 + c mod 16)) EmptyString)))
  else String (ascii_of_Z c) EmptyString.

(** [str(b)] of a bytes object, i.e. its [repr]: single quotes unless the
    bytes contain a single quote and no double quote. *)
Definition bytes_repr (bs : list Byte.byte) : string :=
  let has c := existsb (fun b => byte_val b =? c) bs in
  let quote := if has 39 && negb (has 34) then 34 else 39 in
  String "b" (String (ascii_of_Z quote)
    (fold_right (fun b s => String.append (repr_byte quote b) s) (String (ascii_of_Z quote) EmptyString) bs)).

(** [str(v)]. *)
Definition py_str (v : pyval) : string :=
  match v with
  | PInt n => if n <? 0 then String "-" (dec_str (- n)) else dec_str n
  | PBytes b => bytes_repr b
  end.

(** ** Object state *)

(** Values stored in [self.header]: strings produced by formatting, or the
    unpacked object itself. *)
Inductive hval : Type :=
| HStr (s : string)
| HObj (v : pyval).

(** A Python dict with string keys, in insertion order. *)
Definition dict := list (string * hval).

Fixpoint dict_set (d : dict) (k : string) (v : hval) : dict :=
  match d with
  | [] => [(k, v)]
  | (k', v') :: d' =>
      if String.eqb k k' then (k, v) :: d' else (k', v') :: dict_set d' k v
  end.

Fixpoint dict_get (d : dict) (k : string) : option hval :=
  match d with
  | [] => None
  | (k', v) :: d' => if String.eqb k k' then Some v else dict_get d' k
  end.

Record EMeter : Type := mkEMeter {
  cl : list (list pyval);        (* [[CHNIDX, VALIDX, TYPEIDX, TARIFFIDX, VALUE], ...] *)
  header : dict;
  emdat : list Byte.byte
}.

(** [EMeter()]: [self.emdat = None] is modelled by an empty buffer. *)
Definition init : EMeter := mkEMeter [] [] [].

Definition set_cl (st : EMeter) (c : list (list pyval)) : EMeter :=
  mkEMeter c (header st) (emdat st).
Definition set_header (st : EMeter) (h : dict) : EMeter :=
  mkEMeter (cl st) h (emdat st).

Definition update (st : EMeter) (data : list Byte.byte) : EMeter :=
  mkEMeter (cl st) (header st) data.

(** ** [get_header] *)

(** How the header dict stores one element of the unpacked tuple. *)
Inductive hfmt : Type :=
| AsStr            (* str(h[i]) *)
| AsHex (w : nat)  (* "{:0wX}".format(h[i]) *)
| AsDec            (* "{:d}".format(h[i]) *)
| AsIs.            (* h[i] *)

Definition header_entries : list (string * nat * hfmt) :=
  [("ID", 0%nat, AsStr); ("4", 1%nat, AsHex 4); ("TAG", 2%nat, AsHex 4);
   ("GROUP", 3%nat, AsHex 8); ("LENGTH", 4%nat, AsIs);
   ("SMANET2", 5%nat, AsHex 4); ("PROTID", 6%nat, AsHex 4);
   ("SUSY", 7%nat, AsDec); ("SERNO", 8%nat, AsDec); ("TICKER", 9%nat, AsIs)]%string.

Definition apply_hfmt (f : hfmt) (v : pyval) : result hval :=
  match f with
  | AsStr => Ok (HStr (py_str v))
  | AsHex w => s <- format_hex w v ;; Ok (HStr s)
  | AsDec => s <- format_dec v ;; Ok (HStr s)
  | AsIs => Ok (HObj v)
  end.

(** The ten assignments [self.header[k] = ...], one after the other. *)
Fixpoint fill_header (h : list pyval) (d : dict) (es : list (string * nat * hfmt))
  : dict * result unit :=
  match es with
  | [] => (d, Ok tt)
  | (k, i, f) :: es' =>
      match bind (py_index h i) (apply_hfmt f) with
      | Raise e => (d, Raise e)
      | Ok v => fill_header h (dict_set d k v) es'
      end
  end.

Definition get_header (st : EMeter) : EMeter * result dict :=
  let st1 := set_header st [] in
  match unpack_from EMETER_HEADER_FORMAT (emdat st1) 0 with
  | Raise e => (st1, Raise e)
  | Ok h =>
      let '(d, r) := fill_header h [] header_entries in
      (set_header st1 d, bind r (fun _ => Ok d))
  end.

(** ** [extract_all_channels] *)

(** One pass through the body of the [while] loop at [offset]: the raised
    exception, [None] for the [break] on an unexpected type, or the record
    [dat] to append together with the next offset. *)
Definition loop_body (buf : list Byte.byte) (offset : nat)
  : result (option (list pyval * nat)) :=
  dat <- unpack_from OBISTAG buf offset ;;
  ty <- py_index dat TYPEIDX ;;
  match (if py_eq_int ty TYPE8 then Some VAL8
         else if py_eq_int ty TYPE4 then Some VAL4 else None) with
  | None => Ok None
  | Some valsize =>
      val <- unpack_from valsize buf (offset + calcsize OBISTAG) ;;
      v0 <- py_index val 0 ;;
      let dat' := dat ++ [v0] in
      t <- bind (py_index dat' TYPEIDX) py_int ;;
      Ok (Some (dat', (offset + calcsize OBISTAG + Z.to_nat t)%nat))
  end.

(** How the loop ends: normally at some offset, or by an exception; each
    with the records appended to [self.cl] so far.  [WFuel] is never
    reached with the fuel [extract_all_channels] gives (see C10). *)
Inductive walk_outcome : Type :=
| WDone (offset : nat) (recs : list (list pyval))
| WRaise (e : pyexc) (recs : list (list pyval))
| WFuel (recs : list (list pyval)).

Fixpoint walk (fuel : nat) (buf : list Byte.byte) (offset : nat)
    (acc : list (list pyval)) : walk_outcome :=
  match fuel with
  | O => WFuel acc
  | S f =>
      if (offset <? length buf)%nat then
        match loop_body buf offset with
        | Raise e => WRaise e acc
        | Ok None => WDone offset acc
        | Ok (Some (dat, offset')) => walk f buf offset' (acc ++ [dat])
        end
      else WDone offset acc
  end.

(** The loop as [extract_all_channels] runs it: from [EMETER_HEADER_SIZE],
    on a cleared [self.cl]. *)
Definition extract_walk (buf : list Byte.byte) : walk_outcome :=
  walk (S (length buf)) buf EMETER_HEADER_SIZE [].

Definition extract_all_channels (st : EMeter) : EMeter * result unit :=
  match extract_walk (emdat st) with
  | WDone _ recs => (set_cl st recs, Ok tt)
  | WRaise e recs => (set_cl st recs, Raise e)
  | WFuel recs => (set_cl st recs, Ok tt)
  end.

(** ** Lookup of measurement values *)

(** [[v[VALUEIDX] for v in self.cl if v[TYPEIDX] == TYPE4 and v[VALIDX] == idx]] *)
Fixpoint act_values (c : list (list pyval)) (idx : Z) : result (list pyval) :=
  match c with
  | [] => Ok []
  | v :: rest =>
      ty <- py_index v TYPEIDX ;;
      keep <- (if py_eq_int ty TYPE4
               then (vi <- py_index v VALIDX ;; Ok (py_eq_int vi idx))
               else Ok false) ;;
      if keep then
        x <- py_index v VALUEIDX ;;
        xs <- act_values rest idx ;;
        Ok (x :: xs)
      else act_values rest idx
  end.

Definition helper_extract_act_values (st : EMeter) (idx : Z) : result pyval :=
  l <- act_values (cl st) idx ;;
  py_index l 0.

Definition scaled (unit : string) (st : EMeter) (idx d : Z) : result (string * Z) :=
  v <- helper_extract_act_values st idx ;;
  q <- py_floordiv v d ;;
  Ok (unit, q).

Definition get_act_pwr_all_from_grid st := scaled "W" st ALL_ACT_POWER_FROM_GRID 10.
Definition get_act_pwr_all_to_grid st := scaled "W" st ALL_ACT_POWER_TO_GRID 10.
Definition get_act_pwr_phase1_from_grid st := scaled "W" st PHASE1_ACT_PWR_FROM_GRID 10.
Definition get_act_pwr_phase1_to_grid st := scaled "W" st PHASE1_ACT_PWR_TO_GRID 10.
Definition get_act_pwr_phase2_from_grid st := scaled "W" st PHASE2_ACT_PWR_FROM_GRID 10.
Definition get_act_pwr_phase2_to_grid st := scaled "W" st PHASE2_ACT_PWR_TO_GRID 10.
Definition get_act_pwr_phase3_from_grid st := scaled "W" st PHASE3_ACT_PWR_FROM_GRID 10.
Definition get_act_pwr_phase3_to_grid st := scaled "W" st PHASE3_ACT_PWR_TO_GRID 10.
Definition get_act_pwr_phase1_current st := scaled "A" st PHASE1_CURRENT 1000.
Definition get_act_pwr_phase1_voltage st := scaled "V" st PHASE1_VOLTAGE 1000.
Definition get_act_pwr_phase2_current st := scaled "A" st PHASE2_CURRENT 1000.
Definition get_act_pwr_phase2_voltage st := scaled "V" st PHASE2_VOLTAGE 1000.
Definition get_act_pwr_phase3_current st := scaled "A" st PHASE3_CURRENT 1000.
Definition get_act_pwr_phase3_voltage st := scaled "V" st PHASE3_VOLTAGE 1000.

(** ** One iteration of the demo loop of [__main__] (without [--js])

    The datagram goes through [update], [get_header] and
    [extract_all_channels], then the fourteen getters are printed in this
    order.  Nothing in the loop catches an exception: a [Raise] ends the
    program.  The printed (unit, value) pairs are returned. *)
Fixpoint run_getters (st : EMeter) (gs : list (EMeter -> result (string * Z)))
  : result (list (string * Z)) :=
  match gs with
  | [] => Ok []
  | g :: gs' => p <- g st ;; ps <- run_getters st gs' ;; Ok (p :: ps)
  end.

Definition demo_getters : list (EMeter -> result (string * Z)) :=
  [get_act_pwr_all_from_grid; get_act_pwr_phase1_from_grid;
   get_act_pwr_phase2_from_grid; get_act_pwr_phase3_from_grid;
   get_act_pwr_all_to_grid; get_act_pwr_phase1_to_grid;
   get_act_pwr_phase2_to_grid; get_act_pwr_phase3_to_grid;
   get_act_pwr_phase1_voltage; get_act_pwr_phase1_current;
   get_act_pwr_phase2_voltage; get_act_pwr_phase2_current;
   get_act_pwr_phase3_voltage; get_act_pwr_phase3_current].

Definition demo_iteration (st : EMeter) (data : list Byte.byte)
  : EMeter * result (list (string * Z)) :=
  let st1 := update st data in
  let '(st2, rh) := get_header st1 in
  match rh with
  | Raise e => (st2, Raise e)
  | Ok _ =>
      let '(st3, rc) := extract_all_channels st2 in
      match rc with
      | Raise e => (st3, Raise e)
      | Ok _ => (st3, run_getters st3 demo_getters)
      end
  end.

(** ** Well-formed TLV records, to state properties of the walk

    A record as it sits in the datagram: the four OBIS tag bytes followed by
    the value bytes. *)
Record tlv : Type := mkTLV {
  t_chn : Byte.byte;
  t_idx : Byte.byte;
  t_type : Byte.byte;
  t_tariff : Byte.byte;
  t_val : list Byte.byte
}.

Definition tlv_width (r : tlv) : nat := Z.to_nat (byte_val (t_type r)).

Definition tlv_size (r : tlv) : nat := (4 + tlv_width r)%nat.

Definition tlv_wf (r : tlv) : Prop :=
  (byte_val (t_type r) = 4 \/ byte_val (t_type r) = 8) /\
  length (t_val r) = tlv_width r.

Definition tlv_encode (r : tlv) : list Byte.byte :=
  [t_chn r; t_idx r; t_type r; t_tariff r] ++ t_val r.

(** The entry of [self.cl] the record should give. *)
Definition tlv_decode (r : tlv) : list pyval :=
  [PInt (byte_val (t_chn r)); PInt (byte_val (t_idx r));
   PInt (byte_val (t_type r)); PInt (byte_val (t_tariff r));
   PInt (be_uint (t_val r))].

Definition stream (rs : list tlv) : list Byte.byte := concat (map tlv_encode rs).

Definition stream_size (rs : list tlv) : nat := list_sum (map tlv_size rs).

(** An entry of [self.cl] of the shape the walk produces. *)
Definition channel_ok (dat : list pyval) : Prop :=
  exists c i t tr v,
    dat = [PInt c; PInt i; PInt t; PInt tr; PInt v] /\
    (t = 4 \/ t = 8) /\ 0 <= v < 2 ^ (8 * t).

Definition outcome_recs (o : walk_outcome) : list (list pyval) :=
  match o with
  | WDone _ r | WRaise _ r | WFuel r => r
  end.

(** Selection rule of [helper_extract_act_values]. *)
Definition selects (idx : Z) (v : list pyval) : bool :=
  py_eq_int (nth TYPEIDX v (PBytes [])) TYPE4 &&
  py_eq_int (nth VALIDX v (PBytes [])) idx.

(** ** The header layout and the strings stored in [self.header] *)

(** The unsigned big-endian integer in bytes [[off, off+n)] of [buf]. *)
Definition header_field (buf : list Byte.byte) (off n : nat) : Z :=
  be_uint (firstn n (skipn off buf)).

(** The ten fields at the offsets of the EMETER_DATA2 comment: a 4-byte
    identifier, then widths 2,2,4,2,2,2,2,4,4. *)
Definition header_tuple (buf : list Byte.byte) : list pyval :=
  [PBytes (firstn 4 buf); PInt (header_field buf 4 2); PInt (header_field buf 6 2);
   PInt (header_field buf 8 4); PInt (header_field buf 12 2);
   PInt (header_field buf 14 2); PInt (header_field buf 16 2);
   PInt (header_field buf 18 2); PInt (header_field buf 20 4);
   PInt (header_field buf 24 4)].

Definition header_dict_of (buf : list Byte.byte) : dict :=
  [("ID", HStr (py_str (PBytes (firstn 4 buf))));
   ("4", HStr (hex_str 4 (header_field buf 4 2)));
   ("TAG", HStr (hex_str 4 (header_field buf 6 2)));
   ("GROUP", HStr (hex_str 8 (header_field buf 8 4)));
   ("LENGTH", HObj (PInt (header_field buf 12 2)));
   ("SMANET2", HStr (hex_str 4 (header_field buf 14 2)));
   ("PROTID", HStr (hex_str 4 (header_field buf 16 2)));
   ("SUSY", HStr (dec_str (header_field buf 18 2)));
   ("SERNO", HStr (dec_str (header_field buf 20 4)));
   ("TICKER", HObj (PInt (header_field buf 24 4)))]%string.

(** Reading back a digit string: the value of a digit character, and the
    number a string of digits denotes in [base]. *)
Definition digit_value (c : ascii) : Z :=
  match String.index 0 (String c EmptyString) "0123456789ABCDEF" with
  | Some k => Z.of_nat k
  | None => 0
  end.

Fixpoint parse_digits (base acc : Z) (s : string) : Z :=
  match s with
  | EmptyString => acc
  | String c s' => parse_digits base (acc * base + digit_value c) s'
  end.

(** ** Sample datagrams

    The datagram of the spec's end-to-end scenario: header ["SMA\0"],
    version 0x0002, tag 0x0010, group 1, length 0x0100, smaNet2 1,
    protocol 0x6069, susy 1, serial number 1234567, ticker 42, then the
    records (1,1,4,0,15000) and (1,2,4,0,3000). *)
Definition sample_header : list Byte.byte :=
  [Byte.x53; Byte.x4d; Byte.x41; Byte.x00; Byte.x00; Byte.x02; Byte.x00; Byte.x10;
   Byte.x00; Byte.x00; Byte.x00; Byte.x01; Byte.x01; Byte.x00; Byte.x00; Byte.x01;
   Byte.x60; Byte.x69; Byte.x00; Byte.x01; Byte.x00; Byte.x12; Byte.xd6; Byte.x87;
   Byte.x00; Byte.x00; Byte.x00; Byte.x2a].

Definition sample_records : list tlv :=
  [mkTLV Byte.x01 Byte.x01 Byte.x04 Byte.x00 [Byte.x00; Byte.x00; Byte.x3a; Byte.x98];
   mkTLV Byte.x01 Byte.x02 Byte.x04 Byte.x00 [Byte.x00; Byte.x00; Byte.x0b; Byte.xb8]].

Definition sample_datagram : list Byte.byte := sample_header ++ stream sample_records.

(** ** [get_javascript] and the sharing of [self.js] with [self.header]

    [get_javascript] executes [self.js = self.get_header()]: from then on
    [self.js] and [self.header] are one dict object, and the channel
    entries it adds with [self.js.update(chn)] go into [self.header].  The
    object is modelled with the header dict (whose values may now be the
    [("dW", value)] tuples) and a reference telling whether [self.js] is a
    dict of its own or the header dict. *)

Inductive jval : Type :=
| JH (v : hval)                       (* a value stored by [get_header] *)
| JTuple (unit : string) (v : pyval). (* [("dW", value)] *)

Definition jdict := list (string * jval).

Fixpoint jdict_set (d : jdict) (k : string) (v : jval) : jdict :=
  match d with
  | [] => [(k, v)]
  | (k', v') :: d' =>
      if String.eqb k k' then (k, v) :: d' else (k', v') :: jdict_set d' k v
  end.

Fixpoint jdict_get (d : jdict) (k : string) : option jval :=
  match d with
  | [] => None
  | (k', v) :: d' => if String.eqb k k' then Some v else jdict_get d' k
  end.

(** [d.update(u)]. *)
Definition jdict_update (d u : jdict) : jdict :=
  fold_left (fun d kv => jdict_set d (fst kv) (snd kv)) u d.

Definition lift_dict (d : dict) : jdict := map (fun kv => (fst kv, JH (snd kv))) d.

Inductive jsref : Type :=
| JsOwn (d : jdict)   (* [self.js] is a dict of its own *)
| JsHeader.           (* [self.js] is the dict [self.header] *)

Record EMeterJS : Type := mkEMeterJS {
  jcl : list (list pyval);
  jheader : jdict;
  jemdat : list Byte.byte;
  js : jsref
}.

(** [EMeter()]: [self.header = {}], [self.js = {}], two distinct dicts. *)
Definition init_js : EMeterJS := mkEMeterJS [] [] [] (JsOwn []).

Definition js_update (s : EMeterJS) (data : list Byte.byte) : EMeterJS :=
  mkEMeterJS (jcl s) (jheader s) data (js s).

(** The dict [self.js] refers to. *)
Definition js_view (s : EMeterJS) : jdict :=
  match js s with
  | JsOwn d => d
  | JsHeader => jheader s
  end.

(** The state [get_header] and [extract_all_channels] work on; both clear
    or ignore the previous header, which is passed as empty. *)
Definition js_base (s : EMeterJS) : EMeter := mkEMeter (jcl s) [] (jemdat s).

(** [self.get_header()] on the shared-dict state: it clears and refills
    [self.header], and so also [self.js] when they are one dict. *)
Definition get_header_js (s : EMeterJS) : EMeterJS * result jdict :=
  let '(st', r) := get_header (js_base s) in
  (mkEMeterJS (cl st') (lift_dict (header st')) (emdat st') (js s),
   match r with Ok d => Ok (lift_dict d) | Raise e => Raise e end).

(** The keys of the [chn] dict literal, in source order. *)
Definition js_channels : list (string * Z) :=
  [("chn1", ALL_ACT_POWER_FROM_GRID); ("chn21", PHASE1_ACT_PWR_FROM_GRID);
   ("chn41", PHASE2_ACT_PWR_FROM_GRID); ("chn61", PHASE3_ACT_PWR_FROM_GRID);
   ("chn2", ALL_ACT_POWER_TO_GRID); ("chn22", PHASE1_ACT_PWR_TO_GRID);
   ("chn42", PHASE2_ACT_PWR_TO_GRID); ("chn62", PHASE3_ACT_PWR_TO_GRID)]%string.

(** Evaluating the [chn] dict literal: its values left to right. *)
Fixpoint chn_values (st : EMeter) (l : list (string * Z)) : result jdict :=
  match l with
  | [] => Ok []
  | (k, idx) :: l' =>
      v <- helper_extract_act_values st idx ;;
      rest <- chn_values st l' ;;
      Ok ((k, JTuple "dW" v) :: rest)
  end.

Definition get_javascript (s : EMeterJS) : EMeterJS * result jdict :=
  (* self.js.clear() *)
  let s1 := match js s with
            | JsOwn _ => mkEMeterJS (jcl s) (jheader s) (jemdat s) (JsOwn [])
            | JsHeader => mkEMeterJS (jcl s) [] (jemdat s) JsHeader
            end in
  (* self.js = self.get_header() *)
  let '(s2, rh) := get_header_js s1 in
  match rh with
  | Raise e => (s2, Raise e)
  | Ok _ =>
      let s3 := mkEMeterJS (jcl s2) (jheader s2) (jemdat s2) JsHeader in
      (* self.extract_all_channels() *)
      let '(st4, rc) := extract_all_channels (js_base s3) in
      let s4 := mkEMeterJS (cl st4) (jheader s3) (jemdat s3) JsHeader in
      match rc with
      | Raise e => (s4, Raise e)
      | Ok _ =>
          match chn_values st4 js_channels with
          | Raise e => (s4, Raise e)
          | Ok chn =>
              (* self.js.update(chn); return self.js *)
              let s5 := mkEMeterJS (jcl s4) (jdict_update (jheader s4) chn)
                                   (jemdat s4) JsHeader in
              (s5, Ok (js_view s5))
          end
      end
  end.

(** The measurement indices of the fourteen getters the demo loop prints,
    in the order of [demo_getters]. *)
Definition demo_indices : list Z :=
  [ALL_ACT_POWER_FROM_GRID; PHASE1_ACT_PWR_FROM_GRID; PHASE2_ACT_PWR_FROM_GRID;
   PHASE3_ACT_PWR_FROM_GRID; ALL_ACT_POWER_TO_GRID; PHASE1_ACT_PWR_TO_GRID;
   PHASE2_ACT_PWR_TO_GRID; PHASE3_ACT_PWR_TO_GRID; PHASE1_VOLTAGE; PHASE1_CURRENT;
   PHASE2_VOLTAGE; PHASE2_CURRENT; PHASE3_VOLTAGE; PHASE3_CURRENT].

(** A datagram carrying all eight power channels the [--js] output reads. *)
Definition sample_records_js : list tlv :=
  map (fun i => mkTLV Byte.x00 i Byte.x04 Byte.x00 [Byte.x00; Byte.x00; Byte.x01; i])
    [Byte.x01; Byte.x15; Byte.x29; Byte.x3d; Byte.x02; Byte.x16; Byte.x2a; Byte.x3e].

Definition sample_datagram_js : list Byte.byte := sample_header ++ stream sample_records_js.

(** ** Lemmas on the [struct] model *)

Lemma unpack_from_ok fmt buf off :
  (off + calcsize fmt <= length buf)%nat ->
  unpack_from fmt buf off = Ok (decode_fields fmt (skipn off buf)).
Proof.
  intro H. unfold unpack_from.
  destruct (Nat.ltb_spec (length buf) (off + calcsize fmt)); [lia | reflexivity].
Qed.

Lemma unpack_from_short fmt buf off :
  (length buf < off + calcsize fmt)%nat ->
  unpack_from fmt buf off = Raise StructError.
Proof.
  intro H. unfold unpack_from.
  destruct (Nat.ltb_spec (length buf) (off + calcsize fmt)); [reflexivity | lia].
Qed.

Lemma firstn_exact {A} (l r : list A) n :
  length l = n -> firstn n (l ++ r) = l.
Proof.
  intros <-. rewrite firstn_app, Nat.sub_diag, firstn_all. simpl.
  apply app_nil_r.
Qed.

Lemma skipn_exact {A} (l r : list A) n :
  length l = n -> skipn n (l ++ r) = r.
Proof.
  intros <-. rewrite skipn_app, Nat.sub_diag, skipn_all. reflexivity.
Qed.

Lemma skipn_cons_length {A} (buf : list A) off x l :
  skipn off buf = x :: l -> length buf = (off + S (length l))%nat.
Proof.
  intro H.
  assert (Hl : length (skipn off buf) = S (length l)) by (rewrite H; reflexivity).
  rewrite length_skipn in Hl. lia.
Qed.

Lemma skipn_nil_length {A} (buf : list A) off :
  skipn off buf = [] -> (length buf <= off)%nat.
Proof.
  intro H.
  assert (Hl : length (skipn off buf) = 0%nat) by (rewrite H; reflexivity).
  rewrite length_skipn in Hl. lia.
Qed.

Lemma byte_val_range b : 0 <= byte_val b < 256.
Proof.
  unfold byte_val. pose proof (Byte.to_N_bounded b) as H.
  split; [lia|].
  assert (Z.of_N (Byte.to_N b) <= 255) by lia. lia.
Qed.

Lemma be_uint_app l1 l2 :
  be_uint (l1 ++ l2) = fold_left (fun acc b => acc * 256 + byte_val b) l2 (be_uint l1).
Proof. unfold be_uint. apply fold_left_app. Qed.

Lemma fold_be_range l acc :
  0 <= acc ->
  0 <= fold_left (fun acc b => acc * 256 + byte_val b) l acc <
       (acc + 1) * 256 ^ Z.of_nat (length l).
Proof.
  revert acc; induction l as [|b l IH]; intros acc Hacc; cbn [fold_left length].
  - simpl. lia.
  - pose proof (byte_val_range b).
    specialize (IH (acc * 256 + byte_val b) ltac:(lia)).
    rewrite Nat2Z.inj_succ, Z.pow_succ_r by lia.
    split; [lia|].
    eapply Z.lt_le_trans; [apply IH|].
    assert (0 <= 256 ^ Z.of_nat (length l)) by (apply Z.pow_nonneg; lia).
    nia.
Qed.

Lemma be_uint_range l : 0 <= be_uint l < 256 ^ Z.of_nat (length l).
Proof.
  pose proof (fold_be_range l 0 ltac:(lia)) as H. unfold be_uint. lia.
Qed.

(** ** One pass of the loop body over a well-formed record *)

Lemma be_uint_one b : be_uint [b] = byte_val b.
Proof. reflexivity. Qed.

Lemma tlv_encode_length r :
  tlv_wf r -> length (tlv_encode r) = tlv_size r.
Proof.
  intros [_ Hl]. unfold tlv_encode, tlv_size. simpl. rewrite Hl. reflexivity.
Qed.

Lemma loop_body_record buf off r rest :
  tlv_wf r ->
  skipn off buf = tlv_encode r ++ rest ->
  loop_body buf off = Ok (Some (tlv_decode r, (off + tlv_size r)%nat)).
Proof.
  intros Hwf Hs.
  pose proof Hwf as [Ht Hl].
  assert (Hlen : length buf = (off + (tlv_size r + length rest))%nat).
  { assert (E : length (skipn off buf) = (tlv_size r + length rest)%nat)
      by (rewrite Hs, length_app, tlv_encode_length by exact Hwf; reflexivity).
    rewrite length_skipn in E.
    unfold tlv_size in *. lia. }
  unfold loop_body.
  rewrite unpack_from_ok by (unfold tlv_size in Hlen; simpl; lia).
  rewrite Hs. destruct r as [c i t tr val]; simpl in *.
  assert (Hs4 : skipn (off + 4) buf = val ++ rest).
  { rewrite Nat.add_comm, <- skipn_skipn, Hs. reflexivity. }
  unfold tlv_width in Hl; simpl in Hl.
  rewrite !be_uint_one.
  destruct Ht as [Ht | Ht]; rewrite Ht.
  - simpl.
    rewrite unpack_from_ok by (unfold tlv_size, tlv_width in Hlen; simpl in *; lia).
    rewrite Hs4. cbn [decode_fields code_size VAL4 VAL8].
    rewrite firstn_exact by (rewrite Hl, Ht; reflexivity).
    unfold tlv_decode, tlv_size, tlv_width; simpl. rewrite Ht.
    do 3 f_equal. simpl. lia.
  - simpl.
    rewrite unpack_from_ok by (unfold tlv_size, tlv_width in Hlen; simpl in *; lia).
    rewrite Hs4. cbn [decode_fields code_size VAL4 VAL8].
    rewrite firstn_exact by (rewrite Hl, Ht; reflexivity).
    unfold tlv_decode, tlv_size, tlv_width; simpl. rewrite Ht.
    do 3 f_equal. simpl. lia.
Qed.

(** ** The walk over a run of well-formed records *)

Lemma stream_length rs :
  Forall tlv_wf rs -> length (stream rs) = stream_size rs.
Proof.
  induction 1 as [|r rs Hr _ IH]; [reflexivity|].
  unfold stream, stream_size in *. cbn [map concat list_sum].
  rewrite length_app, tlv_encode_length by exact Hr. rewrite IH. reflexivity.
Qed.

Lemma stream_size_lower rs :
  Forall tlv_wf rs -> (8 * length rs <= stream_size rs)%nat.
Proof.
  induction 1 as [|r rs [Ht _] _ IH]; [simpl; lia|].
  unfold stream_size in *. cbn [map length].
  change (list_sum (tlv_size r :: map tlv_size rs))
    with (tlv_size r + list_sum (map tlv_size rs))%nat.
  unfold tlv_size at 1, tlv_width.
  destruct Ht as [-> | ->];
    [change (Z.to_nat 4) with 4%nat | change (Z.to_nat 8) with 8%nat]; lia.
Qed.

Lemma walk_records rs : forall fuel buf off acc tail,
  Forall tlv_wf rs ->
  skipn off buf = stream rs ++ tail ->
  (length rs < fuel)%nat ->
  walk fuel buf off acc =
  walk (fuel - length rs) buf (off + stream_size rs) (acc ++ map tlv_decode rs).
Proof.
  induction rs as [|r rs IH]; intros fuel buf off acc tail Hwf Hs Hf.
  - simpl. rewrite Nat.sub_0_r, Nat.add_0_r, app_nil_r. reflexivity.
  - inversion Hwf as [|? ? Hr Hrs]; subst.
    destruct fuel as [|f]; [simpl in Hf; lia|].
    unfold stream in Hs. cbn [map concat] in Hs. rewrite <- app_assoc in Hs.
    assert (Hlt : (off < length buf)%nat).
    { destruct (tlv_encode r ++ stream rs ++ tail) eqn:E.
      - unfold tlv_encode in E. discriminate.
      - rewrite (skipn_cons_length buf off b l) by (rewrite Hs; exact E). lia. }
    simpl walk. destruct (Nat.ltb_spec off (length buf)); [|lia].
    rewrite (loop_body_record buf off r (stream rs ++ tail) Hr Hs).
    rewrite (IH f buf (off + tlv_size r)%nat (acc ++ [tlv_decode r]) tail Hrs).
    + simpl. unfold stream_size. simpl. rewrite <- app_assoc.
      f_equal. unfold tlv_size. lia.
    + rewrite Nat.add_comm, <- skipn_skipn, Hs.
      apply (skipn_exact (tlv_encode r)), tlv_encode_length, Hr.
    + simpl in Hf. lia.
Qed.

(** The walk started by [extract_all_channels] on a datagram made of a
    28-byte header, well-formed records and a tail. *)
Lemma extract_walk_records hdr rs tail :
  length hdr = 28%nat ->
  Forall tlv_wf rs ->
  extract_walk (hdr ++ stream rs ++ tail) =
  walk (S (length (hdr ++ stream rs ++ tail)) - length rs) (hdr ++ stream rs ++ tail)
       (28 + stream_size rs) (map tlv_decode rs).
Proof.
  intros Hh Hwf. unfold extract_walk.
  apply (walk_records rs _ _ _ [] tail Hwf).
  - apply skipn_exact. exact Hh.
  - rewrite !length_app, stream_length by exact Hwf.
    pose proof (stream_size_lower rs Hwf). lia.
Qed.

Lemma walk_unfold f buf off acc :
  walk (S f) buf off acc =
  if (off <? length buf)%nat then
    match loop_body buf off with
    | Raise e => WRaise e acc
    | Ok None => WDone off acc
    | Ok (Some (dat, off')) => walk f buf off' (acc ++ [dat])
    end
  else WDone off acc.
Proof. reflexivity. Qed.

Lemma extract_walk_end hdr rs :
  length hdr = 28%nat ->
  Forall tlv_wf rs ->
  extract_walk (hdr ++ stream rs) = WDone (28 + stream_size rs) (map tlv_decode rs).
Proof.
  intros Hh Hwf.
  pose proof (extract_walk_records hdr rs [] Hh Hwf) as E.
  rewrite app_nil_r in E. rewrite E.
  assert (Hlen : length (hdr ++ stream rs) = (28 + stream_size rs)%nat)
    by (rewrite length_app, stream_length by exact Hwf; lia).
  pose proof (stream_size_lower rs Hwf).
  destruct (S (length (hdr ++ stream rs)) - length rs)%nat as [|f] eqn:Ef; [lia|].
  simpl. rewrite Hlen, Nat.ltb_irrefl. reflexivity.
Qed.

(** When something follows the records, the walk's next pass runs the loop
    body at the offset right after them. *)
Lemma extract_walk_next hdr rs tail :
  length hdr = 28%nat ->
  Forall tlv_wf rs ->
  tail <> [] ->
  extract_walk (hdr ++ stream rs ++ tail) =
  match loop_body (hdr ++ stream rs ++ tail) (28 + stream_size rs) with
  | Raise e => WRaise e (map tlv_decode rs)
  | Ok None => WDone (28 + stream_size rs) (map tlv_decode rs)
  | Ok (Some (dat, off')) =>
      walk (length (hdr ++ stream rs ++ tail) - length rs)
           (hdr ++ stream rs ++ tail) off' (map tlv_decode rs ++ [dat])
  end.
Proof.
  intros Hh Hwf Ht.
  rewrite (extract_walk_records hdr rs tail Hh Hwf).
  assert (Hlen : length (hdr ++ stream rs ++ tail) =
                 (28 + stream_size rs + length tail)%nat)
    by (rewrite !length_app, stream_length by exact Hwf; lia).
  pose proof (stream_size_lower rs Hwf).
  destruct tail as [|x tl]; [congruence|].
  replace (S (length (hdr ++ stream rs ++ x :: tl)) - length rs)%nat
    with (S (length (hdr ++ stream rs ++ x :: tl) - length rs)) by lia.
  rewrite walk_unfold.
  rewrite (proj2 (Nat.ltb_lt _ _)) by (rewrite Hlen; simpl; lia).
  reflexivity.
Qed.

Lemma skipn_after_records hdr rs tail :
  length hdr = 28%nat ->
  Forall tlv_wf rs ->
  skipn (28 + stream_size rs) (hdr ++ stream rs ++ tail) = tail.
Proof.
  intros Hh Hwf.
  rewrite <- (stream_length rs Hwf), <- Hh, Nat.add_comm, <- skipn_skipn.
  rewrite (skipn_exact hdr) by reflexivity.
  apply skipn_exact. reflexivity.
Qed.

(** ** The loop body at a tag it cannot complete *)

Lemma loop_body_unknown_type buf off c i t tr rest :
  skipn off buf = [c; i; t; tr] ++ rest ->
  byte_val t <> 4 -> byte_val t <> 8 ->
  loop_body buf off = Ok None.
Proof.
  intros Hs H4 H8.
  pose proof (skipn_cons_length buf off c _ Hs) as Hl. simpl in Hl.
  unfold loop_body.
  rewrite unpack_from_ok by (simpl; lia).
  rewrite Hs. cbn [decode_fields code_size OBISTAG].
  simpl. rewrite !be_uint_one.
  unfold TYPE8, TYPE4.
  rewrite (proj2 (Z.eqb_neq _ _) H8), (proj2 (Z.eqb_neq _ _) H4).
  reflexivity.
Qed.

Lemma loop_body_truncated buf off c i t tr rest :
  skipn off buf = [c; i; t; tr] ++ rest ->
  (byte_val t = 4 \/ byte_val t = 8) ->
  (length rest < Z.to_nat (byte_val t))%nat ->
  loop_body buf off = Raise StructError.
Proof.
  intros Hs Ht Hr.
  pose proof (skipn_cons_length buf off c _ Hs) as Hl. simpl in Hl.
  unfold loop_body.
  rewrite unpack_from_ok by (simpl; lia).
  rewrite Hs. cbn [decode_fields code_size OBISTAG].
  simpl. rewrite !be_uint_one.
  destruct Ht as [Ht | Ht]; rewrite Ht in *; simpl;
    rewrite unpack_from_short by (simpl in *; lia); reflexivity.
Qed.

Lemma loop_body_fragment buf off frag :
  skipn off buf = frag ->
  (0 < length frag < 4)%nat ->
  loop_body buf off = Raise StructError.
Proof.
  intros Hs Hf.
  assert (Hl : length buf = (off + length frag)%nat).
  { assert (E : length (skipn off buf) = length frag) by (rewrite Hs; reflexivity).
    rewrite length_skipn in E. lia. }
  unfold loop_body. rewrite unpack_from_short by (simpl; lia). reflexivity.
Qed.

(** [extract_all_channels] after [update], from the outcome of the walk. *)
Lemma extract_all_channels_update st buf :
  extract_all_channels (update st buf) =
  match extract_walk buf with
  | WDone _ recs => (mkEMeter recs (header st) buf, Ok tt)
  | WRaise e recs => (mkEMeter recs (header st) buf, Raise e)
  | WFuel recs => (mkEMeter recs (header st) buf, Ok tt)
  end.
Proof. reflexivity. Qed.

(** ** Claims on [extract_all_channels] *)

(** C1: on a datagram whose bytes after the 28-byte header are exactly N
    well-formed records (type byte 4 or 8, followed by that many value
    bytes), the walk ends normally at offset 28 + the sum of (4 + width)
    and [self.cl] holds the N records, decoded, in datagram order. *)
Theorem extract_all_channels_wellformed_stream st hdr rs :
  length hdr = 28%nat ->
  Forall tlv_wf rs ->
  extract_walk (hdr ++ stream rs) = WDone (28 + stream_size rs) (map tlv_decode rs) /\
  extract_all_channels (update st (hdr ++ stream rs)) =
    (mkEMeter (map tlv_decode rs) (header st) (hdr ++ stream rs), Ok tt).
Proof.
  intros Hh Hwf.
  rewrite extract_all_channels_update, (extract_walk_end hdr rs Hh Hwf).
  split; reflexivity.
Qed.

(** C3: when the first tag after well-formed records has a type byte other
    than 4 and 8, the walk breaks there without an exception, and [self.cl]
    holds exactly the records before it. *)
Theorem extract_all_channels_unknown_type st hdr rs c i t tr rest :
  length hdr = 28%nat ->
  Forall tlv_wf rs ->
  byte_val t <> 4 -> byte_val t <> 8 ->
  extract_walk (hdr ++ stream rs ++ [c; i; t; tr] ++ rest) =
    WDone (28 + stream_size rs) (map tlv_decode rs) /\
  extract_all_channels (update st (hdr ++ stream rs ++ [c; i; t; tr] ++ rest)) =
    (mkEMeter (map tlv_decode rs) (header st) (hdr ++ stream rs ++ [c; i; t; tr] ++ rest),
     Ok tt).
Proof.
  intros Hh Hwf H4 H8.
  assert (E : extract_walk (hdr ++ stream rs ++ [c; i; t; tr] ++ rest) =
              WDone (28 + stream_size rs) (map tlv_decode rs)).
  { rewrite (extract_walk_next hdr rs _ Hh Hwf) by discriminate.
    rewrite (loop_body_unknown_type _ _ c i t tr rest); try assumption.
    - reflexivity.
    - apply skipn_after_records; assumption. }
  rewrite extract_all_channels_update, E. split; reflexivity.
Qed.

(** C5: when a tag after well-formed records has type 4 or 8 but fewer
    value bytes follow it, reading the value raises [struct.error]; the
    records before it stay in [self.cl]. *)
Theorem extract_all_channels_truncated_value st hdr rs c i t tr rest :
  length hdr = 28%nat ->
  Forall tlv_wf rs ->
  (byte_val t = 4 \/ byte_val t = 8) ->
  (length rest < Z.to_nat (byte_val t))%nat ->
  extract_walk (hdr ++ stream rs ++ [c; i; t; tr] ++ rest) =
    WRaise StructError (map tlv_decode rs) /\
  extract_all_channels (update st (hdr ++ stream rs ++ [c; i; t; tr] ++ rest)) =
    (mkEMeter (map tlv_decode rs) (header st) (hdr ++ stream rs ++ [c; i; t; tr] ++ rest),
     Raise StructError).
Proof.
  intros Hh Hwf Ht Hr.
  assert (E : extract_walk (hdr ++ stream rs ++ [c; i; t; tr] ++ rest) =
              WRaise StructError (map tlv_decode rs)).
  { rewrite (extract_walk_next hdr rs _ Hh Hwf) by discriminate.
    rewrite (loop_body_truncated _ _ c i t tr rest); try assumption.
    - reflexivity.
    - apply skipn_after_records; assumption. }
  rewrite extract_all_channels_update, E. split; reflexivity.
Qed.

(** C7: a datagram ending in a 3-byte fragment after the header does not
    end the walk normally: [extract_all_channels] raises [struct.error]. *)
Lemma extract_all_channels_fragment_raises :
  snd (extract_all_channels (update init (sample_header ++ [Byte.x01; Byte.x02; Byte.x03])))
  = Raise StructError.
Proof. vm_compute. reflexivity. Qed.

Lemma extract_all_channels_wellformed_stream_witness :
  length sample_header = 28%nat /\ Forall tlv_wf sample_records /\
  extract_walk (sample_header ++ stream sample_records) =
    WDone (28 + stream_size sample_records) (map tlv_decode sample_records).
Proof.
  assert (Hh : length sample_header = 28%nat) by reflexivity.
  assert (Hwf : Forall tlv_wf sample_records)
    by (repeat constructor; vm_compute; auto).
  split; [exact Hh | split; [exact Hwf |]].
  exact (proj1 (extract_all_channels_wellformed_stream init _ _ Hh Hwf)).
Defined.

Lemma extract_all_channels_unknown_type_witness :
  extract_walk (sample_header ++ stream sample_records ++
                [Byte.x00; Byte.x00; Byte.x00; Byte.x00] ++ [Byte.x00]) =
    WDone 44 (map tlv_decode sample_records).
Proof.
  apply (extract_all_channels_unknown_type init sample_header sample_records
           Byte.x00 Byte.x00 Byte.x00 Byte.x00 [Byte.x00]).
  - reflexivity.
  - repeat constructor; vm_compute; auto.
  - vm_compute. discriminate.
  - vm_compute. discriminate.
Defined.

Lemma extract_all_channels_truncated_value_witness :
  extract_walk (sample_header ++ stream sample_records ++
                [Byte.x01; Byte.x03; Byte.x08; Byte.x00] ++ [Byte.x00; Byte.x01]) =
    WRaise StructError (map tlv_decode sample_records).
Proof.
  apply (extract_all_channels_truncated_value init sample_header sample_records
           Byte.x01 Byte.x03 Byte.x08 Byte.x00 [Byte.x00; Byte.x01]).
  - reflexivity.
  - repeat constructor; vm_compute; auto.
  - right. reflexivity.
  - vm_compute. lia.
Defined.

(** ** Every record the loop body appends *)

Lemma unpack_int_range c buf off val :
  unpack_from [c] buf off = Ok val ->
  (forall n, c <> Fs n) ->
  exists v, val = [PInt v] /\ 0 <= v < 256 ^ Z.of_nat (code_size c).
Proof.
  intros E Hc. unfold unpack_from in E.
  destruct (Nat.ltb_spec (length buf) (off + calcsize [c])) as [_|Hle];
    [discriminate|].
  injection E as <-.
  assert (Hlen : length (firstn (code_size c) (skipn off buf)) = code_size c).
  { rewrite length_firstn, length_skipn. simpl in Hle. lia. }
  exists (be_uint (firstn (code_size c) (skipn off buf))).
  split.
  - destruct c; [exfalso; exact (Hc n eq_refl) | reflexivity ..].
  - pose proof (be_uint_range (firstn (code_size c) (skipn off buf))) as R.
    rewrite Hlen in R. exact R.
Qed.

Lemma loop_body_appends buf off dat off' :
  loop_body buf off = Ok (Some (dat, off')) ->
  channel_ok dat /\
  exists t, (t = 4 \/ t = 8) /\ off' = (off + 4 + Z.to_nat t)%nat.
Proof.
  unfold loop_body, unpack_from at 1.
  destruct (Nat.ltb _ _); [discriminate|].
  cbn [decode_fields OBISTAG code_size py_index nth_error bind py_eq_int TYPEIDX].
  match goal with |- context [Z.eqb ?T TYPE8] => set (t := T) end.
  set (a := be_uint (firstn 1 (skipn off buf))).
  match goal with |- context [PInt a :: PInt ?B :: PInt t :: PInt ?D :: nil] =>
    set (b := B); set (d := D) end.
  assert (Hwidth : forall valsize, valsize = VAL4 \/ valsize = VAL8 ->
    (t = 4 /\ valsize = VAL4 \/ t = 8 /\ valsize = VAL8) ->
    (val <- unpack_from valsize buf (off + calcsize OBISTAG);;
     v0 <- py_index val 0;;
     t0 <- bind (py_index ([PInt a; PInt b; PInt t; PInt d] ++ [v0]) TYPEIDX) py_int;;
     Ok (Some ([PInt a; PInt b; PInt t; PInt d] ++ [v0],
               (off + calcsize OBISTAG + Z.to_nat t0)%nat))) = Ok (Some (dat, off')) ->
    channel_ok dat /\
    exists t, (t = 4 \/ t = 8) /\ off' = (off + 4 + Z.to_nat t)%nat).
  { intros valsize _ Hv E.
    destruct (unpack_from valsize buf (off + calcsize OBISTAG)) as [val|e] eqn:EV;
      [|discriminate].
    destruct (unpack_int_range (match valsize with [c] => c | _ => FB end)
                buf (off + calcsize OBISTAG) val) as [v [-> Hr]].
    - destruct Hv as [[_ ->] | [_ ->]]; exact EV.
    - destruct Hv as [[_ ->] | [_ ->]]; discriminate.
    - cbn in E. injection E as <- <-. split.
      + exists a, b, t, d, v. split; [reflexivity|].
        destruct Hv as [[-> ->] | [-> ->]]; cbn in Hr; split; auto; lia.
      + exists t. split; [destruct Hv as [[-> _] | [-> _]]; auto | reflexivity]. }
  destruct (Z.eqb_spec t TYPE8) as [H8|_].
  - apply (Hwidth VAL8); [right; reflexivity | right; split; [exact H8 | reflexivity]].
  - destruct (Z.eqb_spec t TYPE4) as [H4|_]; [|discriminate].
    apply (Hwidth VAL4); [left; reflexivity | left; split; [exact H4 | reflexivity]].
Qed.

Lemma walk_channels_ok fuel : forall buf off acc,
  Forall channel_ok acc ->
  Forall channel_ok (outcome_recs (walk fuel buf off acc)).
Proof.
  induction fuel as [|f IH]; intros buf off acc Hacc; [exact Hacc|].
  rewrite walk_unfold.
  destruct (off <? length buf)%nat; [|exact Hacc].
  destruct (loop_body buf off) as [[[dat off']|]|e] eqn:E; try exact Hacc.
  apply IH, Forall_app. split; [exact Hacc|].
  constructor; [|constructor].
  exact (proj1 (loop_body_appends buf off dat off' E)).
Qed.

Lemma walk_not_fuel fuel : forall buf off acc,
  (length buf - off < fuel)%nat ->
  match walk fuel buf off acc with WFuel _ => False | _ => True end.
Proof.
  induction fuel as [|f IH]; intros buf off acc Hf; [lia|].
  rewrite walk_unfold.
  destruct (Nat.ltb_spec off (length buf)) as [Hlt|]; [|exact I].
  destruct (loop_body buf off) as [[[dat off']|]|e] eqn:E; try exact I.
  apply IH.
  destruct (loop_body_appends buf off dat off' E) as [_ [t [Ht ->]]].
  destruct Ht as [-> | ->]; simpl; lia.
Qed.

(** ** Claims C9 and C10 *)

(** C9: whatever the datagram, every entry the walk leaves in [self.cl] is
    [[chn, idx, t, tariff, v]] with [t] equal to 4 or 8 and
    [0 <= v < 2^(8 t)]. *)
Theorem extract_all_channels_records_ok st buf :
  Forall channel_ok (outcome_recs (extract_walk buf)) /\
  Forall channel_ok (cl (fst (extract_all_channels (update st buf)))).
Proof.
  assert (H : Forall channel_ok (outcome_recs (extract_walk buf)))
    by (apply walk_channels_ok; constructor).
  split; [exact H|].
  rewrite extract_all_channels_update.
  destruct (extract_walk buf); exact H.
Qed.

(** C10: the loop of [extract_all_channels] ends on every datagram (the
    fuel it is given is never exhausted), and every pass that appends a
    record moves the offset forward by at least 8 bytes. *)
Theorem extract_all_channels_terminates buf :
  match extract_walk buf with WFuel _ => False | _ => True end /\
  (forall off,
     match loop_body buf off with
     | Ok (Some (_, off')) => (off + 8 <= off')%nat
     | _ => True
     end).
Proof.
  split.
  - apply walk_not_fuel. lia.
  - intro off.
    destruct (loop_body buf off) as [[[dat off']|]|e] eqn:E; try exact I.
    destruct (loop_body_appends buf off dat off' E) as [_ [t [Ht ->]]].
    destruct Ht as [-> | ->]; simpl; lia.
Qed.

(** ** Reading back the formatted header fields *)

Definition of_digits (base : Z) (ds : list Z) : Z :=
  fold_left (fun acc d => acc * base + d) ds 0.

Lemma to_digits_value fuel : forall base n,
  0 < base -> 0 <= n -> of_digits base (to_digits fuel base n) = n.
Proof.
  induction fuel as [|f IH]; intros base n Hb Hn; simpl; [reflexivity|].
  destruct (Z.ltb_spec n base); [reflexivity|].
  unfold of_digits in *. rewrite fold_left_app, IH by (try apply Z.div_pos; lia).
  simpl. rewrite Z.mul_comm. symmetry. apply Z.div_mod. lia.
Qed.

Lemma to_digits_bound fuel : forall base n,
  2 <= base -> 0 <= n < 2 ^ Z.of_nat fuel ->
  Forall (fun d => 0 <= d < base) (to_digits fuel base n).
Proof.
  induction fuel as [|f IH]; intros base n Hb Hn; simpl.
  - simpl in Hn. constructor; [lia | constructor].
  - destruct (Z.ltb_spec n base); [constructor; [lia | constructor]|].
    apply Forall_app. split; [|constructor; [apply Z.mod_pos_bound; lia | constructor]].
    apply IH; [exact Hb|]. split; [apply Z.div_pos; lia|].
    rewrite Nat2Z.inj_succ, Z.pow_succ_r in Hn by lia.
    apply Z.div_lt_upper_bound; [lia|].
    assert (0 <= 2 ^ Z.of_nat f) by (apply Z.pow_nonneg; lia). nia.
Qed.

Lemma digits_bound base n :
  2 <= base -> 0 <= n -> Forall (fun d => 0 <= d < base) (digits base n).
Proof.
  intros Hb Hn. apply to_digits_bound; [exact Hb|]. split; [exact Hn|].
  rewrite Nat2Z.inj_succ, Z2Nat.id by apply Z.log2_nonneg.
  destruct (Z.eq_dec n 0) as [->|Hnz]; [simpl; lia|].
  apply Z.log2_spec. lia.
Qed.

Lemma digit_value_char d : 0 <= d < 16 -> digit_value (digit_char d) = d.
Proof.
  intro H.
  assert (E : d = 0 \/ d = 1 \/ d = 2 \/ d = 3 \/ d = 4 \/ d = 5 \/ d = 6 \/ d = 7 \/
              d = 8 \/ d = 9 \/ d = 10 \/ d = 11 \/ d = 12 \/ d = 13 \/ d = 14 \/ d = 15)
    by lia.
  repeat (destruct E as [-> | E]; [reflexivity|]). subst. reflexivity.
Qed.

Lemma parse_string_of_digits base ds : forall acc,
  Forall (fun d => 0 <= d < 16) ds ->
  parse_digits base acc (string_of_digits ds) =
  fold_left (fun acc d => acc * base + d) ds acc.
Proof.
  induction ds as [|d ds IH]; intros acc H; [reflexivity|].
  inversion H as [|? ? Hd Hds]; subst. simpl.
  rewrite digit_value_char by exact Hd. apply IH, Hds.
Qed.

Lemma parse_zeros base k s : parse_digits base 0 (zeros k ++ s) = parse_digits base 0 s.
Proof.
  induction k as [|k IH]; [reflexivity|]. simpl. exact IH.
Qed.

Lemma Forall_digits_16 base n :
  2 <= base <= 16 -> 0 <= n -> Forall (fun d => 0 <= d < 16) (digits base n).
Proof.
  intros Hb Hn. eapply Forall_impl; [|apply (digits_bound base n); lia].
  simpl. intros d Hd. lia.
Qed.

Lemma hex_str_value w n : 0 <= n -> parse_digits 16 0 (hex_str w n) = n.
Proof.
  intro Hn. unfold hex_str, zero_pad. rewrite parse_zeros.
  rewrite parse_string_of_digits by (apply Forall_digits_16; lia).
  apply to_digits_value; lia.
Qed.

Lemma dec_str_value n : 0 <= n -> parse_digits 10 0 (dec_str n) = n.
Proof.
  intro Hn. unfold dec_str.
  rewrite parse_string_of_digits by (apply Forall_digits_16; lia).
  apply to_digits_value; lia.
Qed.

(** ** [get_header] *)

Lemma format_hex_nonneg w n : 0 <= n -> format_hex w (PInt n) = Ok (hex_str w n).
Proof.
  intro Hn. unfold format_hex. destruct (Z.ltb_spec n 0); [lia | reflexivity].
Qed.

Lemma format_dec_nonneg n : 0 <= n -> format_dec (PInt n) = Ok (dec_str n).
Proof.
  intro Hn. unfold format_dec. destruct (Z.ltb_spec n 0); [lia | reflexivity].
Qed.

Lemma header_field_nonneg buf off n : 0 <= header_field buf off n.
Proof. apply be_uint_range. Qed.

Lemma decode_header buf :
  decode_fields EMETER_HEADER_FORMAT (skipn 0 buf) = header_tuple buf.
Proof.
  change (skipn 0 buf) with buf.
  cbn [decode_fields EMETER_HEADER_FORMAT code_size].
  unfold header_tuple, header_field. rewrite !skipn_skipn. reflexivity.
Qed.

Lemma fill_header_tuple buf :
  fill_header (header_tuple buf) [] header_entries = (header_dict_of buf, Ok tt).
Proof.
  unfold header_tuple.
  cbn [fill_header header_entries py_index nth_error bind apply_hfmt].
  rewrite !format_hex_nonneg, !format_dec_nonneg by apply header_field_nonneg.
  reflexivity.
Qed.

(** C2: for every buffer of at least 28 bytes, [struct.unpack_from] with
    [EMETER_HEADER_FORMAT] (28 bytes) reads bytes [[0,28)] as a 4-byte
    identifier and nine unsigned big-endian integers of widths
    2,2,4,2,2,2,2,4,4 at offsets 4,6,8,12,14,16,18,20,24; [get_header]
    never refuses such a buffer, stores LENGTH and TICKER as the unpacked
    integers and every other integer field as a hexadecimal or decimal
    string that reads back to the same value. *)
Theorem get_header_layout st buf :
  (28 <= length buf)%nat ->
  EMETER_HEADER_SIZE = 28%nat /\
  unpack_from EMETER_HEADER_FORMAT buf 0 = Ok (header_tuple buf) /\
  get_header (update st buf) =
    (mkEMeter (cl st) (header_dict_of buf) buf, Ok (header_dict_of buf)) /\
  (forall w off n,
     parse_digits 16 0 (hex_str w (header_field buf off n)) = header_field buf off n /\
     parse_digits 10 0 (dec_str (header_field buf off n)) = header_field buf off n).
Proof.
  intro Hlen.
  assert (Hu : unpack_from EMETER_HEADER_FORMAT buf 0 = Ok (header_tuple buf)).
  { rewrite unpack_from_ok by (simpl; lia). rewrite decode_header. reflexivity. }
  split; [reflexivity|]. split; [exact Hu|]. split.
  - unfold get_header. cbn [emdat update set_header]. rewrite Hu, fill_header_tuple.
    reflexivity.
  - intros w off n. split.
    + apply hex_str_value, header_field_nonneg.
    + apply dec_str_value, header_field_nonneg.
Qed.

Lemma get_header_layout_witness :
  get_header (update init sample_datagram) =
    (mkEMeter [] (header_dict_of sample_datagram) sample_datagram,
     Ok (header_dict_of sample_datagram)).
Proof.
  apply (get_header_layout init sample_datagram). vm_compute. lia.
Defined.

(** ** [helper_extract_act_values] *)

Lemma py_index_nth {A} (l : list A) i d :
  (i < length l)%nat -> py_index l i = Ok (nth i l d).
Proof.
  intro H. unfold py_index. rewrite (nth_error_nth' l d H). reflexivity.
Qed.

Lemma act_values_filter c idx :
  Forall (fun v => (5 <= length v)%nat) c ->
  act_values c idx = Ok (map (fun v => nth VALUEIDX v (PBytes [])) (filter (selects idx) c)).
Proof.
  induction 1 as [|v c Hv _ IH]; [reflexivity|].
  simpl act_values.
  rewrite (py_index_nth v TYPEIDX (PBytes [])) by (unfold TYPEIDX; lia).
  cbn [bind]. unfold selects at 1. simpl filter.
  destruct (py_eq_int (nth TYPEIDX v (PBytes [])) TYPE4); cbn [bind andb].
  - rewrite (py_index_nth v VALIDX (PBytes [])) by (unfold VALIDX; lia).
    cbn [bind].
    destruct (py_eq_int (nth VALIDX v (PBytes [])) idx); cbn [bind]; [|exact IH].
    rewrite (py_index_nth v VALUEIDX (PBytes [])) by (unfold VALUEIDX; lia).
    cbn [bind]. rewrite IH. reflexivity.
  - exact IH.
Qed.

(** C4: a datagram with a valid header and no channel records ends the demo
    loop with an uncaught [IndexError] from the first lookup. *)
Lemma helper_extract_act_values_missing_raises :
  helper_extract_act_values (fst (extract_all_channels (update init sample_header))) 1
    = Raise IndexError /\
  snd (demo_iteration init sample_header) = Raise IndexError.
Proof. vm_compute. split; reflexivity. Qed.

(** ** Short datagrams *)

(** C6 (as amended): on a buffer shorter than 28 bytes, [get_header]
    raises [struct.error] from its size check, before any byte is read;
    [self.header] is left empty and [self.cl] untouched.  The demo loop does
    not catch it: the iteration ends with that exception. *)
Theorem get_header_short_buffer st buf :
  (length buf < 28)%nat ->
  get_header (update st buf) = (mkEMeter (cl st) [] buf, Raise StructError) /\
  demo_iteration st buf = (mkEMeter (cl st) [] buf, Raise StructError).
Proof.
  intro H.
  assert (E : get_header (update st buf) = (mkEMeter (cl st) [] buf, Raise StructError)).
  { unfold get_header. cbn [emdat update set_header].
    rewrite unpack_from_short by (simpl; lia). reflexivity. }
  split; [exact E|].
  unfold demo_iteration. rewrite E. reflexivity.
Qed.

Lemma get_header_short_buffer_witness :
  demo_iteration init [Byte.x53; Byte.x4d; Byte.x41] =
    (mkEMeter [] [] [Byte.x53; Byte.x4d; Byte.x41], Raise StructError).
Proof.
  apply (get_header_short_buffer init [Byte.x53; Byte.x4d; Byte.x41]). simpl. lia.
Defined.

(** C6: a 3-byte datagram is not turned into a reported decode result: the
    demo loop's iteration ends with the [struct.error] of [get_header]. *)
Lemma demo_iteration_short_raises :
  snd (demo_iteration init [Byte.x53; Byte.x4d; Byte.x41]) = Raise StructError.
Proof. vm_compute. reflexivity. Qed.

(** ** Scaling *)

(** C8: the lookups divide the raw value by their fixed divisor with
    Python's [//]: measurement index 1, type 4, raw 15000 gives ("W", 1500);
    index 32, raw 230125 gives ("V", 230); and for a non-negative raw value
    (every value the walk decodes) [//] truncates toward zero. *)
Theorem scaled_lookup_values :
  get_act_pwr_all_from_grid
    (mkEMeter [[PInt 1; PInt 1; PInt 4; PInt 0; PInt 15000]] [] []) = Ok ("W"%string, 1500) /\
  get_act_pwr_phase1_voltage
    (mkEMeter [[PInt 1; PInt 32; PInt 4; PInt 0; PInt 230125]] [] []) = Ok ("V"%string, 230) /\
  (forall st u idx d v,
     0 <= v -> 0 < d ->
     helper_extract_act_values st idx = Ok (PInt v) ->
     scaled u st idx d = Ok (u, Z.quot v d)).
Proof.
  split; [reflexivity|]. split; [reflexivity|].
  intros st u idx d v Hv Hd E. unfold scaled. rewrite E. cbn.
  rewrite Z.quot_div_nonneg by lia. reflexivity.
Qed.

Lemma scaled_lookup_values_witness :
  scaled "W" (mkEMeter [[PInt 1; PInt 1; PInt 4; PInt 0; PInt 15009]] [] []) 1 10
    = Ok ("W"%string, Z.quot 15009 10).
Proof.
  apply (proj2 (proj2 scaled_lookup_values)); [lia | lia | reflexivity].
Defined.

(** The spec's end-to-end datagram: serial number 1234567, ticker 42, two
    records, total power from and to the grid ("W", 1500) and ("W", 300). *)
Lemma sample_datagram_decodes :
  dict_get (header (fst (get_header (update init sample_datagram)))) "SERNO"
    = Some (HStr "1234567") /\
  dict_get (header (fst (get_header (update init sample_datagram)))) "TICKER"
    = Some (HObj (PInt 42)) /\
  length (cl (fst (extract_all_channels (update init sample_datagram)))) = 2%nat /\
  get_act_pwr_all_from_grid (fst (extract_all_channels (update init sample_datagram)))
    = Ok ("W"%string, 1500) /\
  get_act_pwr_all_to_grid (fst (extract_all_channels (update init sample_datagram)))
    = Ok ("W"%string, 300).
Proof. vm_compute. repeat split. Qed.

(** * Further properties of emeter.py *)

(** ** The walk on short datagrams *)

(** [extract_all_channels] on a datagram of at most 28 bytes: the loop
    does not run, nothing is raised, and [self.cl] ends up empty, even
    when the datagram is too short for a header. *)
Theorem extract_all_channels_short st buf :
  (length buf <= 28)%nat ->
  extract_all_channels (update st buf) = (mkEMeter [] (header st) buf, Ok tt).
Proof.
  intro H. rewrite extract_all_channels_update. unfold extract_walk.
  rewrite walk_unfold.
  destruct (Nat.ltb_spec EMETER_HEADER_SIZE (length buf)) as [Hlt|_];
    [cbn in Hlt; lia | reflexivity].
Qed.

Lemma extract_all_channels_short_witness :
  extract_all_channels (update init sample_header) = (mkEMeter [] [] sample_header, Ok tt).
Proof. apply extract_all_channels_short. simpl. lia. Defined.

(** ** The walk does not read the header *)

Lemma loop_body_congr b1 b2 off :
  length b1 = length b2 ->
  skipn off b1 = skipn off b2 ->
  loop_body b1 off = loop_body b2 off.
Proof.
  intros Hl Hs.
  assert (Hs4 : skipn (off + calcsize OBISTAG) b1 = skipn (off + calcsize OBISTAG) b2)
    by (rewrite Nat.add_comm, <- !skipn_skipn, Hs; reflexivity).
  unfold loop_body, unpack_from. rewrite Hl, Hs, Hs4. reflexivity.
Qed.

Lemma walk_congr fuel : forall b1 b2 off acc,
  length b1 = length b2 ->
  (28 <= off)%nat ->
  skipn 28 b1 = skipn 28 b2 ->
  walk fuel b1 off acc = walk fuel b2 off acc.
Proof.
  induction fuel as [|f IH]; intros b1 b2 off acc Hl Hoff Hs; [reflexivity|].
  assert (Hso : skipn off b1 = skipn off b2).
  { replace off with ((off - 28) + 28)%nat by lia.
    rewrite <- !skipn_skipn, Hs. reflexivity. }
  rewrite !walk_unfold, Hl, (loop_body_congr b1 b2 off Hl Hso).
  destruct (off <? length b2)%nat; [|reflexivity].
  destruct (loop_body b2 off) as [[[dat off']|]|e] eqn:E; try reflexivity.
  apply IH; try assumption.
  destruct (loop_body_appends b2 off dat off' E) as [_ [t [Ht ->]]]. lia.
Qed.

(** The channel list does not depend on the first 28 bytes: two datagrams
    that differ only in their headers (including the LENGTH field) give the
    same walk. *)
Theorem extract_walk_header_independent h1 h2 tail :
  length h1 = 28%nat -> length h2 = 28%nat ->
  extract_walk (h1 ++ tail) = extract_walk (h2 ++ tail).
Proof.
  intros H1 H2. unfold extract_walk.
  rewrite !length_app, H1, H2.
  apply walk_congr.
  - rewrite !length_app, H1, H2. reflexivity.
  - cbn. lia.
  - rewrite (skipn_exact h1 tail 28 H1), (skipn_exact h2 tail 28 H2). reflexivity.
Qed.

Lemma extract_walk_header_independent_witness :
  extract_walk (repeat Byte.xff 28 ++ stream sample_records) =
  extract_walk (sample_header ++ stream sample_records).
Proof.
  apply extract_walk_header_independent; reflexivity.
Defined.

(** ** How many records a datagram can give *)

Lemma loop_body_in_bounds buf off dat off' :
  loop_body buf off = Ok (Some (dat, off')) -> (off' <= length buf)%nat.
Proof.
  intro E.
  destruct (loop_body_appends buf off dat off' E) as [_ [t [Ht Hoff]]].
  revert E. unfold loop_body, unpack_from at 1.
  destruct (Nat.ltb _ _); [discriminate|].
  cbn [decode_fields OBISTAG code_size py_index nth_error bind py_eq_int TYPEIDX].
  destruct (Z.eqb _ TYPE8) eqn:E8; [|destruct (Z.eqb _ TYPE4) eqn:E4];
    [| |discriminate];
    (destruct (unpack_from _ buf (off + calcsize OBISTAG)) as [val|e] eqn:EV;
     [|discriminate]);
    unfold unpack_from in EV;
    (destruct (Nat.ltb _ _) eqn:Hc in EV; [discriminate|]);
    apply Nat.ltb_ge in Hc;
    (apply Z.eqb_eq in E8 || apply Z.eqb_eq in E4);
    injection EV as <-; cbn; intro E; injection E as _ <-;
    cbn in *; unfold TYPE4, TYPE8 in *;
    (rewrite E8 || rewrite E4); simpl in *; lia.
Qed.

Lemma walk_count fuel : forall buf off acc,
  (28 + 8 * length acc <= off)%nat ->
  (acc = [] \/ off <= length buf)%nat ->
  (8 * length (outcome_recs (walk fuel buf off acc)) <= length buf - 28)%nat.
Proof.
  induction fuel as [|f IH]; intros buf off acc H1 H2;
    [destruct H2 as [->|]; simpl in *; lia|].
  rewrite walk_unfold.
  destruct (off <? length buf)%nat eqn:Hlt;
    [|destruct H2 as [->|]; simpl in *; lia].
  destruct (loop_body buf off) as [[[dat off']|]|e] eqn:E;
    try (destruct H2 as [->|]; simpl in *; lia).
  apply IH.
  - destruct (loop_body_appends buf off dat off' E) as [_ [t [Ht ->]]].
    rewrite length_app. simpl. destruct Ht as [-> | ->]; simpl; lia.
  - right. exact (loop_body_in_bounds buf off dat off' E).
Qed.

(** Every record takes at least 8 bytes after the header: the walk never
    leaves more than (length - 28) / 8 records in [self.cl], whatever the
    datagram and however the walk ends. *)
Theorem extract_all_channels_count st buf :
  (8 * length (cl (fst (extract_all_channels (update st buf)))) <= length buf - 28)%nat.
Proof.
  assert (H : (8 * length (outcome_recs (extract_walk buf)) <= length buf - 28)%nat)
    by (apply walk_count; [change EMETER_HEADER_SIZE with 28%nat; simpl; lia | left; reflexivity]).
  rewrite extract_all_channels_update.
  destruct (extract_walk buf); exact H.
Qed.

Lemma extract_all_channels_count_witness :
  (8 * length (cl (fst (extract_all_channels (update init sample_datagram))))
     <= length sample_datagram - 28)%nat /\
  length (cl (fst (extract_all_channels (update init sample_datagram)))) = 2%nat.
Proof.
  split; [apply extract_all_channels_count | vm_compute; reflexivity].
Defined.

(** ** Lookups on the records the walk produces *)

Lemma extract_all_channels_eq st :
  extract_all_channels st =
  match extract_walk (emdat st) with
  | WDone _ recs => (mkEMeter recs (header st) (emdat st), Ok tt)
  | WRaise e recs => (mkEMeter recs (header st) (emdat st), Raise e)
  | WFuel recs => (mkEMeter recs (header st) (emdat st), Ok tt)
  end.
Proof. reflexivity. Qed.

Lemma extract_all_channels_cl st :
  cl (fst (extract_all_channels st)) = outcome_recs (extract_walk (emdat st)).
Proof. rewrite extract_all_channels_eq. destruct (extract_walk (emdat st)); reflexivity. Qed.

Lemma channel_ok_length v : channel_ok v -> (5 <= length v)%nat.
Proof. intros (c & i & t & tr & x & -> & _). simpl. lia. Qed.

Lemma helper_lookup_find st idx :
  Forall (fun v => (5 <= length v)%nat) (cl st) ->
  helper_extract_act_values st idx =
  match find (selects idx) (cl st) with
  | Some v => Ok (nth VALUEIDX v (PBytes []))
  | None => Raise IndexError
  end.
Proof.
  intro H. unfold helper_extract_act_values.
  rewrite (act_values_filter _ idx H). cbn [bind].
  induction (cl st) as [|v c IH]; [reflexivity|].
  simpl. destruct (selects idx v); [reflexivity|].
  apply IH. inversion H; assumption.
Qed.

Lemma find_none_existsb {A} (f : A -> bool) l :
  find f l = None -> existsb f l = false.
Proof.
  induction l as [|x l IH]; [reflexivity|]. simpl.
  destruct (f x); [discriminate | exact IH].
Qed.

Lemma find_some_existsb {A} (f : A -> bool) l v :
  find f l = Some v -> existsb f l = true.
Proof.
  intro H. apply existsb_exists. exists v. apply (find_some f l H).
Qed.

(** A selected record from the walk holds a 4-byte value. *)
Lemma selected_value idx r :
  channel_ok r -> selects idx r = true ->
  exists z, nth VALUEIDX r (PBytes []) = PInt z /\ 0 <= z < 2 ^ 32.
Proof.
  intros (c & i & t & tr & x & -> & Ht & Hx) Hs.
  unfold selects in Hs. cbn in Hs. apply andb_prop in Hs as [Ht4 _].
  apply Z.eqb_eq in Ht4. unfold TYPE4 in Ht4. subst t.
  exists x. split; [reflexivity|]. exact Hx.
Qed.

(** Any value a lookup returns after a walk is a 4-byte unsigned integer:
    the lookup only takes type-4 records, so it lies in [0, 2^32) whatever
    8-byte records the datagram holds. *)
Theorem helper_extract_act_values_range st buf idx v :
  helper_extract_act_values (fst (extract_all_channels (update st buf))) idx = Ok v ->
  exists z, v = PInt z /\ 0 <= z < 2 ^ 32.
Proof.
  set (st' := fst (extract_all_channels (update st buf))).
  assert (Hok : Forall channel_ok (cl st')).
  { unfold st'. rewrite extract_all_channels_cl. apply walk_channels_ok. constructor. }
  rewrite helper_lookup_find by (eapply Forall_impl; [exact channel_ok_length | exact Hok]).
  destruct (find (selects idx) (cl st')) as [r|] eqn:Ef; [|discriminate].
  intro E. injection E as <-.
  destruct (find_some _ _ Ef) as [Hin Hs].
  rewrite Forall_forall in Hok.
  destruct (selected_value idx r (Hok r Hin) Hs) as [z [-> Hz]].
  exists z. split; [reflexivity | exact Hz].
Qed.

Lemma helper_extract_act_values_range_witness :
  exists z, PInt 15000 = PInt z /\ 0 <= z < 2 ^ 32.
Proof.
  apply (helper_extract_act_values_range init sample_datagram 1).
  vm_compute. reflexivity.
Defined.

Lemma helper_outcome st idx :
  Forall channel_ok (cl st) ->
  match helper_extract_act_values st idx with
  | Ok v => existsb (selects idx) (cl st) = true /\
            exists z, v = PInt z /\ 0 <= z < 2 ^ 32
  | Raise e => e = IndexError /\ existsb (selects idx) (cl st) = false
  end.
Proof.
  intro Hok.
  rewrite helper_lookup_find by (eapply Forall_impl; [exact channel_ok_length | exact Hok]).
  destruct (find (selects idx) (cl st)) as [r|] eqn:Ef.
  - split; [exact (find_some_existsb _ _ _ Ef)|].
    destruct (find_some _ _ Ef) as [Hin Hs].
    rewrite Forall_forall in Hok. exact (selected_value idx r (Hok r Hin) Hs).
  - split; [reflexivity | exact (find_none_existsb _ _ Ef)].
Qed.

Lemma run_scaled_outcome st (ts : list (string * Z * Z)) :
  Forall channel_ok (cl st) ->
  match run_getters st (map (fun t => fun st => scaled (fst (fst t)) st (snd (fst t)) (snd t)) ts) with
  | Ok _ => forallb (fun t => existsb (selects (snd (fst t))) (cl st)) ts = true
  | Raise e => e = IndexError /\
               forallb (fun t => existsb (selects (snd (fst t))) (cl st)) ts = false
  end.
Proof.
  intro Hok. induction ts as [|[[u idx] d] ts IH]; [reflexivity|].
  cbn [map run_getters forallb fst snd]. unfold scaled at 1.
  pose proof (helper_outcome st idx Hok) as Hh.
  destruct (helper_extract_act_values st idx) as [v|e]; cbn [bind].
  - destruct Hh as [-> [z [-> _]]]. cbn [py_floordiv bind andb].
    destruct (run_getters st _); exact IH.
  - destruct Hh as [-> ->]. split; reflexivity.
Qed.

Lemma get_header_ok st :
  (28 <= length (emdat st))%nat ->
  get_header st = (mkEMeter (cl st) (header_dict_of (emdat st)) (emdat st),
                   Ok (header_dict_of (emdat st))).
Proof.
  intro H. unfold get_header. cbn [emdat set_header].
  rewrite unpack_from_ok by (simpl; lia). rewrite decode_header, fill_header_tuple.
  reflexivity.
Qed.

Lemma get_header_fails st :
  (length (emdat st) < 28)%nat ->
  get_header st = (mkEMeter (cl st) [] (emdat st), Raise StructError).
Proof.
  intro H. unfold get_header. cbn [emdat set_header].
  rewrite unpack_from_short by (simpl; lia). reflexivity.
Qed.

Lemma demo_iteration_walk_done st buf off recs :
  (28 <= length buf)%nat ->
  extract_walk buf = WDone off recs ->
  match snd (demo_iteration st buf) with
  | Ok _ => forallb (fun idx => existsb (selects idx) recs) demo_indices = true
  | Raise e => e = IndexError /\
               forallb (fun idx => existsb (selects idx) recs) demo_indices = false
  end.
Proof.
  intros Hl Hw. unfold demo_iteration.
  rewrite (get_header_ok (update st buf)) by exact Hl.
  rewrite extract_all_channels_eq. cbn [emdat update]. rewrite Hw.
  assert (Hok : Forall channel_ok recs).
  { change recs with (outcome_recs (WDone off recs)). rewrite <- Hw.
    apply walk_channels_ok. constructor. }
  pose proof (run_scaled_outcome (mkEMeter recs (header_dict_of buf) buf)
    [("W", ALL_ACT_POWER_FROM_GRID, 10); ("W", PHASE1_ACT_PWR_FROM_GRID, 10);
     ("W", PHASE2_ACT_PWR_FROM_GRID, 10); ("W", PHASE3_ACT_PWR_FROM_GRID, 10);
     ("W", ALL_ACT_POWER_TO_GRID, 10); ("W", PHASE1_ACT_PWR_TO_GRID, 10);
     ("W", PHASE2_ACT_PWR_TO_GRID, 10); ("W", PHASE3_ACT_PWR_TO_GRID, 10);
     ("V", PHASE1_VOLTAGE, 1000); ("A", PHASE1_CURRENT, 1000);
     ("V", PHASE2_VOLTAGE, 1000); ("A", PHASE2_CURRENT, 1000);
     ("V", PHASE3_VOLTAGE, 1000); ("A", PHASE3_CURRENT, 1000)]%string Hok) as H.
  exact H.
Qed.

(** One iteration of the demo loop on a datagram whose header is complete
    and whose walk ends normally prints all fourteen values exactly when
    each of the fourteen measurement indices has a type-4 record;
    otherwise it ends with [IndexError]. *)
Theorem demo_iteration_outcome st buf off recs :
  (28 <= length buf)%nat ->
  extract_walk buf = WDone off recs ->
  match snd (demo_iteration st buf) with
  | Ok _ => forallb (fun idx => existsb (selects idx) recs) demo_indices = true
  | Raise e => e = IndexError /\
               forallb (fun idx => existsb (selects idx) recs) demo_indices = false
  end.
Proof. exact (demo_iteration_walk_done st buf off recs). Qed.

Lemma demo_iteration_outcome_witness :
  match snd (demo_iteration init sample_datagram) with
  | Ok _ => forallb (fun idx => existsb (selects idx) (map tlv_decode sample_records))
              demo_indices = true
  | Raise e => e = IndexError /\
               forallb (fun idx => existsb (selects idx) (map tlv_decode sample_records))
                 demo_indices = false
  end.
Proof.
  apply (demo_iteration_outcome init sample_datagram 44).
  - vm_compute. lia.
  - vm_compute. reflexivity.
Defined.

(** ** [get_javascript] *)

Lemma chn_values_outcome st l :
  Forall channel_ok (cl st) ->
  match chn_values st l with
  | Ok chn => map fst chn = map fst l /\
              forallb (fun p => existsb (selects (snd p)) (cl st)) l = true
  | Raise e => e = IndexError /\
               forallb (fun p => existsb (selects (snd p)) (cl st)) l = false
  end.
Proof.
  intro Hok. induction l as [|[k idx] l IH]; [split; reflexivity|].
  cbn [chn_values forallb snd].
  pose proof (helper_outcome st idx Hok) as Hh.
  destruct (helper_extract_act_values st idx) as [v|e]; cbn [bind].
  - destruct Hh as [-> _]. cbn [andb].
    destruct (chn_values st l) as [chn|e]; cbn [bind].
    + destruct IH as [IH1 IH2]. split; [simpl; f_equal; exact IH1 | exact IH2].
    + exact IH.
  - destruct Hh as [-> ->]. split; reflexivity.
Qed.

Lemma get_javascript_normal s buf off recs :
  (28 <= length buf)%nat ->
  extract_walk buf = WDone off recs ->
  get_javascript (js_update s buf) =
  match chn_values (mkEMeter recs [] buf) js_channels with
  | Raise e => (mkEMeterJS recs (lift_dict (header_dict_of buf)) buf JsHeader, Raise e)
  | Ok chn =>
      (mkEMeterJS recs (jdict_update (lift_dict (header_dict_of buf)) chn) buf JsHeader,
       Ok (jdict_update (lift_dict (header_dict_of buf)) chn))
  end.
Proof.
  intros Hl Hw.
  assert (Hh : forall c, get_header (mkEMeter c [] buf) =
             (mkEMeter c (header_dict_of buf) buf, Ok (header_dict_of buf)))
    by (intro c; apply (get_header_ok (mkEMeter c [] buf)); exact Hl).
  assert (He : forall c d, extract_all_channels (mkEMeter c d buf) =
             (mkEMeter recs d buf, Ok tt))
    by (intros c d; rewrite extract_all_channels_eq; cbn [emdat header]; rewrite Hw;
        reflexivity).
  unfold get_javascript, get_header_js, js_base.
  cbn [js jcl jheader jemdat js_update].
  destruct (js s); cbn [js jcl jheader jemdat];
    rewrite Hh; cbn [cl header emdat]; rewrite He;
    destruct (chn_values (mkEMeter recs [] buf) js_channels); reflexivity.
Qed.

Lemma get_javascript_raises_early s buf :
  ((length buf < 28)%nat \/ exists e recs, extract_walk buf = WRaise e recs) ->
  exists s' e, get_javascript (js_update s buf) = (s', Raise e).
Proof.
  intro H.
  unfold get_javascript, get_header_js, js_base.
  destruct (Nat.lt_ge_cases (length buf) 28) as [Hs|Hl].
  - cbn [js jcl jheader jemdat js_update].
    destruct (js s); cbn [js jcl jheader jemdat];
      rewrite (get_header_fails (mkEMeter _ [] buf)) by exact Hs; eexists; eexists;
      reflexivity.
  - destruct H as [Hs | (e & recs & Hw)]; [lia|].
    assert (He : forall c d, extract_all_channels (mkEMeter c d buf) =
               (mkEMeter recs d buf, Raise e))
      by (intros c d; rewrite extract_all_channels_eq; cbn [emdat header]; rewrite Hw;
          reflexivity).
    cbn [js jcl jheader jemdat js_update].
    destruct (js s); cbn [js jcl jheader jemdat];
      rewrite (get_header_ok (mkEMeter _ [] buf)) by exact Hl; cbn [cl header emdat];
      rewrite He; eexists; eexists; reflexivity.
Qed.

Lemma jdict_set_fresh d k v :
  ~ In k (map fst d) -> jdict_set d k v = d ++ [(k, v)].
Proof.
  induction d as [|[k' v'] d IH]; intro Hn; [reflexivity|].
  simpl in Hn. simpl.
  destruct (String.eqb_spec k k') as [->|_]; [exfalso; apply Hn; left; reflexivity|].
  rewrite IH by tauto. reflexivity.
Qed.

Lemma jdict_update_fresh chn : forall d,
  NoDup (map fst chn) ->
  (forall k, In k (map fst chn) -> ~ In k (map fst d)) ->
  jdict_update d chn = d ++ chn.
Proof.
  induction chn as [|[k v] chn IH]; intros d Hnd Hfresh.
  - unfold jdict_update. simpl. rewrite app_nil_r. reflexivity.
  - unfold jdict_update. cbn [fold_left fst snd].
    inversion Hnd as [|? ? Hk Hnd']; subst.
    rewrite jdict_set_fresh by (apply Hfresh; left; reflexivity).
    fold (jdict_update (d ++ [(k, v)]) chn).
    rewrite IH; [rewrite <- app_assoc; reflexivity | exact Hnd'|].
    intros k' Hk' Hin. rewrite map_app, in_app_iff in Hin.
    destruct Hin as [Hin | [Heq | []]].
    + exact (Hfresh k' (or_intror Hk') Hin).
    + simpl in Heq. subst. contradiction.
Qed.

(** The dict [get_javascript] returns after all lookups succeeded. *)
Lemma get_javascript_dict buf chn :
  map fst chn = map fst js_channels ->
  jdict_update (lift_dict (header_dict_of buf)) chn = lift_dict (header_dict_of buf) ++ chn.
Proof.
  intro Hk. apply jdict_update_fresh; rewrite Hk.
  - repeat constructor; simpl; intuition discriminate.
  - intros k Hin. unfold lift_dict. rewrite map_map. cbn.
    simpl in Hin. intuition (subst; discriminate).
Qed.

Lemma walk_recs_ok buf off recs :
  extract_walk buf = WDone off recs -> Forall channel_ok recs.
Proof.
  intro Hw. change recs with (outcome_recs (WDone off recs)). rewrite <- Hw.
  apply walk_channels_ok. constructor.
Qed.

Lemma get_javascript_success s buf s' d :
  get_javascript (js_update s buf) = (s', Ok d) ->
  exists off recs chn,
    (28 <= length buf)%nat /\ extract_walk buf = WDone off recs /\
    chn_values (mkEMeter recs [] buf) js_channels = Ok chn /\
    s' = mkEMeterJS recs (lift_dict (header_dict_of buf) ++ chn) buf JsHeader /\
    d = lift_dict (header_dict_of buf) ++ chn.
Proof.
  intro E.
  destruct (Nat.lt_ge_cases (length buf) 28) as [Hs|Hl].
  { destruct (get_javascript_raises_early s buf (or_introl Hs)) as (s1 & e & E1).
    congruence. }
  destruct (extract_walk buf) as [off recs|e recs|recs] eqn:Hw.
  - rewrite (get_javascript_normal s buf off recs Hl Hw) in E.
    pose proof (chn_values_outcome (mkEMeter recs [] buf) js_channels
                  (walk_recs_ok buf off recs Hw)) as Hc.
    destruct (chn_values (mkEMeter recs [] buf) js_channels) as [chn|e] eqn:Hcv; [|discriminate].
    destruct Hc as [Hk _].
    rewrite (get_javascript_dict buf chn Hk) in E. injection E as <- <-.
    exists off, recs, chn. repeat split; assumption.
  - destruct (get_javascript_raises_early s buf (or_intror (ex_intro _ e (ex_intro _ recs Hw))))
      as (s1 & e1 & E1).
    congruence.
  - pose proof (walk_not_fuel (S (length buf)) buf EMETER_HEADER_SIZE [] ltac:(lia)) as Hf.
    fold (extract_walk buf) in Hf. rewrite Hw in Hf. contradiction.
Qed.

(** After a successful [get_javascript], [self.js] is [self.header] itself,
    and that dict holds the ten header entries followed by the eight
    [chn] entries, each the [("dW", raw value)] of its lookup in the new
    channel list (the raw value, not divided by 10). *)
Theorem get_javascript_result s buf s' d :
  get_javascript (js_update s buf) = (s', Ok d) ->
  js s' = JsHeader /\ jheader s' = d /\
  exists chn, chn_values (js_base s') js_channels = Ok chn /\
              d = lift_dict (header_dict_of buf) ++ chn.
Proof.
  intro E.
  destruct (get_javascript_success s buf s' d E)
    as (off & recs & chn & _ & _ & Hc & -> & ->).
  split; [reflexivity|]. split; [reflexivity|].
  exists chn. split; [exact Hc | reflexivity].
Qed.

Lemma get_javascript_result_witness :
  js (fst (get_javascript (js_update init_js sample_datagram_js))) = JsHeader /\
  jheader (fst (get_javascript (js_update init_js sample_datagram_js))) =
    js_view (fst (get_javascript (js_update init_js sample_datagram_js))) /\
  exists chn,
    chn_values (js_base (fst (get_javascript (js_update init_js sample_datagram_js))))
      js_channels = Ok chn /\
    js_view (fst (get_javascript (js_update init_js sample_datagram_js))) =
      lift_dict (header_dict_of sample_datagram_js) ++ chn.
Proof.
  apply (get_javascript_result init_js sample_datagram_js).
  vm_compute. reflexivity.
Defined.

(** Because [self.js] is [self.header] after a successful
    [get_javascript], the next [get_header] (for the next datagram, of at
    least 28 bytes) clears and refills the dict [self.js] refers to: it then
    holds only the new header entries, the [chn] entries are gone. *)
Theorem get_javascript_shares_header s buf s' d buf2 :
  get_javascript (js_update s buf) = (s', Ok d) ->
  (28 <= length buf2)%nat ->
  js_view (fst (get_header_js (js_update s' buf2))) = lift_dict (header_dict_of buf2).
Proof.
  intros E Hl.
  destruct (get_javascript_success s buf s' d E) as (off & recs & chn & _ & _ & _ & -> & _).
  unfold get_header_js, js_base. cbn [js_update jcl jemdat js].
  rewrite (get_header_ok (mkEMeter recs [] buf2)) by exact Hl.
  reflexivity.
Qed.

Lemma get_javascript_shares_header_witness :
  js_view (fst (get_header_js (js_update (fst (get_javascript (js_update init_js sample_datagram_js)))
                                         sample_datagram)))
  = lift_dict (header_dict_of sample_datagram).
Proof.
  apply (get_javascript_shares_header init_js sample_datagram_js _
           (js_view (fst (get_javascript (js_update init_js sample_datagram_js))))).
  - vm_compute. reflexivity.
  - vm_compute. lia.
Defined.

Lemma get_javascript_walk_done s buf off recs :
  (28 <= length buf)%nat ->
  extract_walk buf = WDone off recs ->
  match snd (get_javascript (js_update s buf)) with
  | Ok _ => forallb (fun p => existsb (selects (snd p)) recs) js_channels = true
  | Raise e => e = IndexError /\
               forallb (fun p => existsb (selects (snd p)) recs) js_channels = false
  end.
Proof.
  intros Hl Hw. rewrite (get_javascript_normal s buf off recs Hl Hw).
  pose proof (chn_values_outcome (mkEMeter recs [] buf) js_channels
                (walk_recs_ok buf off recs Hw)) as Hc.
  destruct (chn_values (mkEMeter recs [] buf) js_channels); cbn [snd].
  - exact (proj2 Hc).
  - exact Hc.
Qed.

(** On a datagram with a complete header whose walk ends normally,
    [get_javascript] succeeds exactly when each of the eight power indices
    (1, 21, 41, 61, 2, 22, 42, 62) has a type-4 record; otherwise it raises
    [IndexError]. *)
Theorem get_javascript_outcome s buf off recs :
  (28 <= length buf)%nat ->
  extract_walk buf = WDone off recs ->
  match snd (get_javascript (js_update s buf)) with
  | Ok _ => forallb (fun p => existsb (selects (snd p)) recs) js_channels = true
  | Raise e => e = IndexError /\
               forallb (fun p => existsb (selects (snd p)) recs) js_channels = false
  end.
Proof. exact (get_javascript_walk_done s buf off recs). Qed.

Lemma get_javascript_outcome_witness :
  match snd (get_javascript (js_update init_js sample_datagram)) with
  | Ok _ => forallb (fun p => existsb (selects (snd p)) (map tlv_decode sample_records))
              js_channels = true
  | Raise e => e = IndexError /\
               forallb (fun p => existsb (selects (snd p)) (map tlv_decode sample_records))
                 js_channels = false
  end.
Proof.
  apply (get_javascript_outcome init_js sample_datagram 44).
  - vm_compute. lia.
  - vm_compute. reflexivity.
Defined.
Lemma loop_body_none buf off :
  loop_body buf off = Ok None ->
  exists c i t tr rest, skipn off buf = [c; i; t; tr] ++ rest /\
                        byte_val t <> 4 /\ byte_val t <> 8.
Proof.
  intro E.
  destruct (Nat.ltb_spec (length buf) (off + 4)) as [Hs|Hl].
  { unfold loop_body in E. rewrite unpack_from_short in E by (simpl; lia). discriminate. }
  pose proof (length_skipn off buf) as Hk.
  destruct (skipn off buf) as [|c [|i [|t [|tr rest]]]] eqn:Hs;
    try (simpl in Hk; lia).
  exists c, i, t, tr, rest. split; [reflexivity|].
  unfold loop_body in E. rewrite unpack_from_ok in E by (simpl; lia).
  rewrite Hs in E. cbn [decode_fields code_size OBISTAG] in E.
  simpl in E. rewrite !be_uint_one in E. unfold TYPE8, TYPE4 in E.
  destruct (Z.eqb_spec (byte_val t) 8) as [H8|H8].
  - exfalso. cbn [bind] in E.
    destruct (unpack_from _ buf _) as [val|]; cbn [bind] in E; [|discriminate].
    destruct (py_index val 0); cbn [bind] in E; discriminate.
  - destruct (Z.eqb_spec (byte_val t) 4) as [H4|H4]; [|split; assumption].
    exfalso. cbn [bind] in E.
    destruct (unpack_from _ buf _) as [val|]; cbn [bind] in E; [|discriminate].
    destruct (py_index val 0); cbn [bind] in E; discriminate.
Qed.

Lemma walk_done_reason fuel : forall buf off acc off' recs,
  walk fuel buf off acc = WDone off' recs ->
  (off' = off /\ length buf <= off)%nat \/ off' = length buf \/
  ((off' < length buf)%nat /\ loop_body buf off' = Ok None).
Proof.
  induction fuel as [|f IH]; intros buf off acc off' recs E; [discriminate|].
  rewrite walk_unfold in E.
  destruct (Nat.ltb_spec off (length buf)) as [Hlt|Hge].
  - destruct (loop_body buf off) as [[[dat o]|]|e] eqn:Eb; [| |discriminate].
    + destruct (IH _ _ _ _ _ E) as [[-> Ho]|[->|H]].
      * pose proof (loop_body_in_bounds buf off dat o Eb). right; left; lia.
      * right; left; reflexivity.
      * right; right; exact H.
    + injection E as <- _. right; right; split; assumption.
  - injection E as <- _. left; split; [reflexivity|exact Hge].
Qed.

(** ** C4 and C7 *)

(** C4 (as amended): over records of five elements, the lookup returns the
    value of the first record, in [self.cl] order, with type 4 and the
    requested index; when there is none it raises [IndexError] (index 0 of
    an empty list).  Neither caller catches it: an iteration of the demo
    loop whose fourteen lookups miss an index, and a [get_javascript] whose
    eight lookups miss one, both end with that [IndexError]. *)
Theorem helper_extract_act_values_first st idx :
  Forall (fun v => (5 <= length v)%nat) (cl st) ->
  helper_extract_act_values st idx =
  match find (selects idx) (cl st) with
  | Some v => Ok (nth VALUEIDX v (PBytes []))
  | None => Raise IndexError
  end /\
  (forall st' buf off recs,
     (28 <= length buf)%nat -> extract_walk buf = WDone off recs ->
     forallb (fun i => existsb (selects i) recs) demo_indices = false ->
     snd (demo_iteration st' buf) = Raise IndexError) /\
  (forall s buf off recs,
     (28 <= length buf)%nat -> extract_walk buf = WDone off recs ->
     forallb (fun p => existsb (selects (snd p)) recs) js_channels = false ->
     snd (get_javascript (js_update s buf)) = Raise IndexError).
Proof.
  intro H. split; [|split].
  - unfold helper_extract_act_values.
    rewrite (act_values_filter _ idx H). cbn [bind].
    induction (cl st) as [|v c IH]; [reflexivity|].
    simpl. destruct (selects idx v); [reflexivity|].
    apply IH. inversion H; assumption.
  - intros st' buf off recs Hl Hw Hf.
    pose proof (demo_iteration_walk_done st' buf off recs Hl Hw) as Hd.
    destruct (snd (demo_iteration st' buf)) as [v|e].
    + rewrite Hd in Hf. discriminate.
    + destruct Hd as [-> _]. reflexivity.
  - intros s buf off recs Hl Hw Hf.
    pose proof (get_javascript_walk_done s buf off recs Hl Hw) as Hd.
    destruct (snd (get_javascript (js_update s buf))) as [v|e].
    + rewrite Hd in Hf. discriminate.
    + destruct Hd as [-> _]. reflexivity.
Qed.

Lemma helper_extract_act_values_first_witness :
  helper_extract_act_values
    (mkEMeter [[PInt 1; PInt 1; PInt 4; PInt 0; PInt 15000];
               [PInt 1; PInt 1; PInt 4; PInt 0; PInt 99]] [] []) 1 = Ok (PInt 15000) /\
  snd (demo_iteration init sample_datagram) = Raise IndexError /\
  snd (get_javascript (js_update init_js sample_datagram)) = Raise IndexError.
Proof.
  destruct (helper_extract_act_values_first
              (mkEMeter [[PInt 1; PInt 1; PInt 4; PInt 0; PInt 15000];
                         [PInt 1; PInt 1; PInt 4; PInt 0; PInt 99]] [] []) 1
              ltac:(repeat constructor; simpl; lia)) as [H1 [H2 H3]].
  split; [|split].
  - rewrite H1. reflexivity.
  - apply (H2 init sample_datagram 44%nat (map tlv_decode sample_records));
      [vm_compute; lia | vm_compute; reflexivity | vm_compute; reflexivity].
  - apply (H3 init_js sample_datagram 44%nat (map tlv_decode sample_records));
      [vm_compute; lia | vm_compute; reflexivity | vm_compute; reflexivity].
Defined.

(** C7 (as amended): when 1 to 3 bytes are left after well-formed records,
    the read of the 4-byte tag raises [struct.error] (the size check comes
    before any byte is read); the records before stay in [self.cl].  The
    walk ends normally only at the end of the buffer (or at offset 28 when
    the buffer is shorter), or at a 4-byte tag whose type byte is neither 4
    nor 8. *)
Theorem extract_all_channels_trailing_fragment st hdr rs frag :
  length hdr = 28%nat ->
  Forall tlv_wf rs ->
  (0 < length frag < 4)%nat ->
  extract_walk (hdr ++ stream rs ++ frag) = WRaise StructError (map tlv_decode rs) /\
  extract_all_channels (update st (hdr ++ stream rs ++ frag)) =
    (mkEMeter (map tlv_decode rs) (header st) (hdr ++ stream rs ++ frag), Raise StructError) /\
  (forall buf off recs,
     extract_walk buf = WDone off recs ->
     off = length buf \/ (length buf < 28 /\ off = 28)%nat \/
     ((off < length buf)%nat /\
      exists c i t tr rest, skipn off buf = [c; i; t; tr] ++ rest /\
                            byte_val t <> 4 /\ byte_val t <> 8)).
Proof.
  intros Hh Hwf Hf.
  assert (E : extract_walk (hdr ++ stream rs ++ frag) =
              WRaise StructError (map tlv_decode rs)).
  { rewrite (extract_walk_next hdr rs _ Hh Hwf)
      by (intro; subst; simpl in Hf; lia).
    rewrite (loop_body_fragment _ _ frag); try assumption.
    - reflexivity.
    - apply skipn_after_records; assumption. }
  split; [exact E|]. split.
  - rewrite extract_all_channels_update, E. reflexivity.
  - intros buf off recs Hw. unfold extract_walk in Hw.
    change EMETER_HEADER_SIZE with 28%nat in Hw.
    destruct (walk_done_reason _ _ _ _ _ _ Hw) as [[-> Hl]|[->|[Hlt Hn]]].
    + destruct (Nat.eq_dec (length buf) 28) as [Heq|Hne].
      * left. lia.
      * right; left. lia.
    + left. reflexivity.
    + right; right. split; [exact Hlt | exact (loop_body_none _ _ Hn)].
Qed.

Lemma extract_all_channels_trailing_fragment_witness :
  extract_walk (sample_header ++ stream sample_records ++ [Byte.x01; Byte.x02]) =
    WRaise StructError (map tlv_decode sample_records) /\
  ((44 = length sample_datagram)%nat \/ (length sample_datagram < 28 /\ 44 = 28)%nat \/
   ((44 < length sample_datagram)%nat /\
    exists c i t tr rest, skipn 44 sample_datagram = [c; i; t; tr] ++ rest /\
                          byte_val t <> 4 /\ byte_val t <> 8)).
Proof.
  destruct (extract_all_channels_trailing_fragment init sample_header sample_records
              [Byte.x01; Byte.x02] eq_refl
              ltac:(repeat constructor; vm_compute; auto)
              ltac:(simpl; lia)) as [H1 [_ H3]].
  split; [exact H1|].
  apply (H3 sample_datagram 44%nat (map tlv_decode sample_records)).
  vm_compute. reflexivity.
Defined.
